(** * Dependency update notifier: a shallow embedding of [main.py]

    The development follows the layout of the program.

    - [Py] holds the few primitives of Python's [str] that the program
      calls ([find], slicing, [strip], [split], [lower]).
    - [re] is a backtracking matcher for the fragment of Python's regular
      expressions that [packaging.version] uses.
    - [version] embeds [packaging.version], the library behind
      [version.parse]: the pattern, the constructor of [Version], the
      comparison key and [<].
    - The functions of [main.py] follow, under their own names, as
      computations in a state and exception monad over a world that
      holds the log stream, the standard output and the count of
      external processes started.  The operating system is an oracle:
      what the n-th process of the run yields for its command line.

    Text is modelled by [string]: a sequence of characters with code
    points below 256.  Integers parsed from digits are unbounded, as
    Python's are. *)

From Stdlib Require Import String Ascii List ZArith NArith Lia Bool Arith.
From Stdlib Require Import DecimalString.
Import ListNotations.
Open Scope list_scope.
Open Scope string_scope.

Set Implicit Arguments.

(* ================================================================= *)
(** ** Python's [str] primitives *)

Module Py.

(** [str.isspace] on one character, for code points below 256:
    TAB..CR, FS..US, SPACE, NEL and NBSP. *)
Definition isspace (a : ascii) : bool :=
  let n := N_of_ascii a in
  ((9 <=? n) && (n <=? 13) || (28 <=? n) && (n <=? 32)
   || (n =? 133) || (n =? 160))%N.

Definition isdigit (a : ascii) : bool :=
  let n := N_of_ascii a in ((48 <=? n) && (n <=? 57))%N.

Definition isupper (a : ascii) : bool :=
  let n := N_of_ascii a in ((65 <=? n) && (n <=? 90))%N.

Definition islower (a : ascii) : bool :=
  let n := N_of_ascii a in ((97 <=? n) && (n <=? 122))%N.

(** [c.lower()] on the ASCII letters. *)
Definition lower_char (a : ascii) : ascii :=
  if isupper a then ascii_of_N (N_of_ascii a + 32) else a.

Fixpoint lower (s : string) : string :=
  match s with
  | EmptyString => EmptyString
  | String a s' => String (lower_char a) (lower s')
  end.

(** [s.lstrip()] *)
Fixpoint lstrip (s : string) : string :=
  match s with
  | EmptyString => EmptyString
  | String a s' => if isspace a then lstrip s' else s
  end.

(** [s.rstrip()]: the tail is stripped first, and a whitespace
    character is dropped only when nothing follows it. *)
Fixpoint rstrip (s : string) : string :=
  match s with
  | EmptyString => EmptyString
  | String a s' =>
      match rstrip s' with
      | EmptyString => if isspace a then EmptyString else String a EmptyString
      | r => String a r
      end
  end.

(** [s.strip()] *)
Definition strip (s : string) : string := rstrip (lstrip s).

(** [s.find(sub, start)]: the least index at or after [start] where
    [sub] occurs, [-1] when there is none; [start] is not negative. *)
Definition find (s sub : string) (start : Z) : Z :=
  match index (Z.to_nat start) sub s with
  | Some i => Z.of_nat i
  | None => (-1)%Z
  end.

(** [s[i:j]] for [0 <= i] and [0 <= j]; empty when [j <= i]. *)
Definition slice (s : string) (i j : Z) : string :=
  substring (Z.to_nat i) (Z.to_nat j - Z.to_nat i) s.

(** [len(s)] *)
Definition len (s : string) : Z := Z.of_nat (String.length s).

(** [s.split(sep)] for a one-character separator given by a predicate:
    the result always has at least one entry. *)
Fixpoint split_on (is_sep : ascii -> bool) (s : string) : list string :=
  match s with
  | EmptyString => [EmptyString]
  | String a s' =>
      if is_sep a then EmptyString :: split_on is_sep s'
      else match split_on is_sep s' with
           | [] => [String a EmptyString]
           | w :: ws => String a w :: ws
           end
  end.

Definition split (s : string) (sep : ascii) : list string :=
  split_on (Ascii.eqb sep) s.

(** [xs[-1]] on a non-empty list; [None] stands for [IndexError]. *)
Fixpoint last_item {A : Type} (xs : list A) : option A :=
  match xs with
  | [] => None
  | [x] => Some x
  | _ :: xs' => last_item xs'
  end.

(** [bool(s)]: a string is true when it is not empty. *)
Definition truthy (s : string) : bool :=
  match s with EmptyString => false | _ => true end.

(** [int(s)] on a string of decimal digits. *)
Definition int_of_digits (s : string) : N :=
  (fix go (acc : N) (s : string) : N :=
     match s with
     | EmptyString => acc
     | String a s' => go (acc * 10 + (N_of_ascii a - 48))%N s'
     end) 0%N s.

(** [str(n)] for an integer. *)
Definition str_of_int (z : Z) : string := NilZero.string_of_int (Z.to_int z).

(** [s.isdigit()] *)
Fixpoint all_digits (s : string) : bool :=
  match s with
  | EmptyString => true
  | String a s' => isdigit a && all_digits s'
  end.

Definition str_isdigit (s : string) : bool := truthy s && all_digits s.

End Py.

(* ================================================================= *)
(** ** Regular expressions, as [packaging.version] uses them *)

Module re.

Inductive regex : Type :=
| Eps                                   (* the empty pattern *)
| Class (p : ascii -> bool)             (* one character of a class *)
| Cat (r1 r2 : regex)                   (* r1 r2 *)
| Alt (r1 r2 : regex)                   (* r1 | r2, r1 tried first *)
| Opt (r : regex)                       (* r?  greedy *)
| Star (r : regex)                      (* r*  greedy *)
| Named (g : string) (r : regex)        (* (?P<g> r) *)
| Eos.                                  (* $ without MULTILINE *)

Definition Plus (r : regex) : regex := Cat r (Star r).

Fixpoint seq (rs : list regex) : regex :=
  match rs with
  | [] => Eps
  | [r] => r
  | r :: rs' => Cat r (seq rs')
  end.

Fixpoint alts (rs : list regex) : regex :=
  match rs with
  | [] => Class (fun _ => false)
  | [r] => r
  | r :: rs' => Alt r (alts rs')
  end.

(** One literal character under [re.IGNORECASE]. *)
Definition chr_i (c : ascii) : regex :=
  Class (fun a => Ascii.eqb (Py.lower_char a) (Py.lower_char c)).

(** A literal word under [re.IGNORECASE]. *)
Fixpoint word_i (s : string) : regex :=
  match s with
  | EmptyString => Eps
  | String c EmptyString => chr_i c
  | String c s' => Cat (chr_i c) (word_i s')
  end.

(** The groups bound so far, most recent first. *)
Definition groups := list (string * string).

(** [m.group(g)]: [None] when the group took no part in the match. *)
Fixpoint group (g : string) (gs : groups) : option string :=
  match gs with
  | [] => None
  | (g', v) :: gs' => if String.eqb g g' then Some v else group g gs'
  end.

Section Matcher.
Variable R : Type.

(** Backtracking matcher in continuation-passing style: [k] receives
    the rest of the subject and the groups; the first alternative
    whose continuation succeeds wins, as in Python's engine. *)
Fixpoint run (r : regex) (s : string) (gs : groups)
         (k : string -> groups -> option R) {struct r} : option R :=
  match r with
  | Eps => k s gs
  | Class p =>
      match s with
      | String a s' => if p a then k s' gs else None
      | EmptyString => None
      end
  | Cat r1 r2 => run r1 s gs (fun s' gs' => run r2 s' gs' k)
  | Alt r1 r2 =>
      match run r1 s gs k with
      | Some x => Some x
      | None => run r2 s gs k
      end
  | Opt r1 =>
      match run r1 s gs k with
      | Some x => Some x
      | None => k s gs
      end
  | Star r1 =>
      (fix loop (fuel : nat) (s : string) (gs : groups) {struct fuel}
         : option R :=
         match fuel with
         | O => k s gs
         | S fuel' =>
             match run r1 s gs
                     (fun s' gs' =>
                        if Nat.ltb (String.length s') (String.length s)
                        then loop fuel' s' gs' else None) with
             | Some x => Some x
             | None => k s gs
             end
         end) (String.length s) s gs
  | Named g r1 =>
      run r1 s gs
          (fun s' gs' =>
             k s' ((g, substring 0 (String.length s - String.length s')%nat s)
                     :: gs'))
  | Eos =>
      match s with
      | EmptyString => k s gs
      | String a EmptyString =>
          if Ascii.eqb a "010" then k s gs else None
      | _ => None
      end
  end.
End Matcher.

(** [pattern.search(s)] for a pattern that starts with [^]: the match
    can only begin at index 0.  The result is the groups of the
    match. *)
Definition search (r : regex) (s : string) : option groups :=
  run r s [] (fun _ gs => Some gs).

End re.

(* ================================================================= *)
(** ** [packaging.version] *)

(** What a call returns: a value, or an exception raised.  Exceptions
    are the subclasses of [Exception] that the program names, with the
    text [str(e)] gives. *)
Inductive exn_class : Type :=
| CalledProcessError
| JSONDecodeError
| FileNotFoundError
| InvalidVersion
| OtherException.

Record exn : Type := mkExn { exn_kind : exn_class; exn_str : string }.

Inductive result (A : Type) : Type :=
| Ok (a : A)
| Raise (e : exn).
Arguments Ok {A} a.
Arguments Raise {A} e.

Module version.
Import re.

(** [_structures]: [NegativeInfinity] and [Infinity] around the
    ordinary values of a key component. *)
Inductive ext (A : Type) : Type :=
| NegativeInfinity
| Fin (a : A)
| Infinity.
Arguments NegativeInfinity {A}.
Arguments Fin {A} a.
Arguments Infinity {A}.

(** [x == y]: the two sentinels equal only themselves. *)
Definition ext_eqb {A} (eqb : A -> A -> bool) (x y : ext A) : bool :=
  match x, y with
  | NegativeInfinity, NegativeInfinity => true
  | Infinity, Infinity => true
  | Fin a, Fin b => eqb a b
  | _, _ => false
  end.

(** [x < y]: [NegativeInfinityType.__lt__] answers [True] and
    [InfinityType.__lt__] answers [False] whatever the other side; an
    ordinary value on the left defers to the sentinel's [__gt__]. *)
Definition ext_ltb {A} (ltb : A -> A -> bool) (x y : ext A) : bool :=
  match x, y with
  | NegativeInfinity, _ => true
  | Infinity, _ => false
  | Fin a, Fin b => ltb a b
  | Fin _, Infinity => true
  | Fin _, NegativeInfinity => false
  end.

(** Python's [<] on tuples: the first position where the items are
    not [==] decides; when one tuple is a prefix of the other the
    shorter is the smaller. *)
Fixpoint tuple_ltb {A} (eqb ltb : A -> A -> bool) (xs ys : list A) : bool :=
  match xs, ys with
  | [], [] => false
  | [], _ :: _ => true
  | _ :: _, [] => false
  | x :: xs', y :: ys' =>
      if eqb x y then tuple_ltb eqb ltb xs' ys' else ltb x y
  end.

Fixpoint tuple_eqb {A} (eqb : A -> A -> bool) (xs ys : list A) : bool :=
  match xs, ys with
  | [], [] => true
  | x :: xs', y :: ys' => eqb x y && tuple_eqb eqb xs' ys'
  | _, _ => false
  end.

Definition pair_eqb {A B} (eqa : A -> A -> bool) (eqb : B -> B -> bool)
           (p q : A * B) : bool :=
  eqa (fst p) (fst q) && eqb (snd p) (snd q).

Definition pair_ltb {A B} (eqa lta : A -> A -> bool) (ltb : B -> B -> bool)
           (p q : A * B) : bool :=
  if eqa (fst p) (fst q) then ltb (snd p) (snd q) else lta (fst p) (fst q).

(** [(letter, number)] pairs of the pre, post and dev segments. *)
Definition letter_version := (string * N)%type.

Definition lv_eqb : letter_version -> letter_version -> bool :=
  pair_eqb String.eqb N.eqb.
Definition lv_ltb : letter_version -> letter_version -> bool :=
  pair_ltb String.eqb String.ltb N.ltb.

(** A part of a local version: an [int] or a [str]. *)
Inductive local_part : Type :=
| LInt (n : N)
| LStr (s : string).

(** [_Version] *)
Record _Version : Type := mk_Version {
  epoch : N;
  release : list N;
  dev : option letter_version;
  pre : option letter_version;
  post : option letter_version;
  local : option (list local_part)
}.

(** [CmpKey] *)
Definition local_key := (ext N * string)%type.

Record CmpKey : Type := mkCmpKey {
  key_epoch : N;
  key_release : list N;
  key_pre : ext letter_version;
  key_post : ext letter_version;
  key_dev : ext letter_version;
  key_local : ext (list local_key)
}.

Definition local_key_eqb : local_key -> local_key -> bool :=
  pair_eqb (ext_eqb N.eqb) String.eqb.
Definition local_key_ltb : local_key -> local_key -> bool :=
  pair_ltb (ext_eqb N.eqb) (ext_ltb N.ltb) String.ltb.

(** [k1 < k2] on the six-tuple. *)
Definition key_ltb (k1 k2 : CmpKey) : bool :=
  if negb (N.eqb (key_epoch k1) (key_epoch k2))
  then N.ltb (key_epoch k1) (key_epoch k2)
  else if negb (tuple_eqb N.eqb (key_release k1) (key_release k2))
  then tuple_ltb N.eqb N.ltb (key_release k1) (key_release k2)
  else if negb (ext_eqb lv_eqb (key_pre k1) (key_pre k2))
  then ext_ltb lv_ltb (key_pre k1) (key_pre k2)
  else if negb (ext_eqb lv_eqb (key_post k1) (key_post k2))
  then ext_ltb lv_ltb (key_post k1) (key_post k2)
  else if negb (ext_eqb lv_eqb (key_dev k1) (key_dev k2))
  then ext_ltb lv_ltb (key_dev k1) (key_dev k2)
  else if negb (ext_eqb (tuple_eqb local_key_eqb)
                        (key_local k1) (key_local k2))
  then ext_ltb (tuple_ltb local_key_eqb local_key_ltb)
               (key_local k1) (key_local k2)
  else false.

(** [itertools.dropwhile(lambda x: x == 0, xs)] *)
Fixpoint dropwhile_zero (xs : list N) : list N :=
  match xs with
  | [] => []
  | x :: xs' => if N.eqb x 0 then dropwhile_zero xs' else xs
  end.

(** [_cmpkey] *)
Definition _cmpkey (epoch : N) (release : list N)
           (pre post dev : option letter_version)
           (local : option (list local_part)) : CmpKey :=
  let _release := rev (dropwhile_zero (rev release)) in
  let _pre :=
    match pre, post, dev with
    | None, None, Some _ => NegativeInfinity
    | None, _, _ => Infinity
    | Some p, _, _ => Fin p
    end in
  let _post := match post with None => NegativeInfinity | Some p => Fin p end in
  let _dev := match dev with None => Infinity | Some d => Fin d end in
  let _local :=
    match local with
    | None => NegativeInfinity
    | Some parts =>
        Fin (map (fun i => match i with
                           | LInt n => (Fin n, "")
                           | LStr s => (NegativeInfinity, s)
                           end) parts)
    end in
  mkCmpKey epoch _release _pre _post _dev _local.

(** [_parse_letter_version] *)
Definition _parse_letter_version (letter number : option string)
  : option letter_version :=
  match letter with
  | Some l =>
      if Py.truthy l then
        let n := match number with
                 | None => 0%N
                 | Some d => Py.int_of_digits d
                 end in
        let l := Py.lower l in
        let l :=
          if String.eqb l "alpha" then "a"
          else if String.eqb l "beta" then "b"
          else if (String.eqb l "c" || String.eqb l "pre"
                   || String.eqb l "preview")%bool then "rc"
          else if (String.eqb l "rev" || String.eqb l "r")%bool then "post"
          else l in
        Some (l, n)
      else
        match number with
        | Some d => if Py.truthy d then Some ("post", Py.int_of_digits d)
                    else None
        | None => None
        end
  | None =>
      match number with
      | Some d => if Py.truthy d then Some ("post", Py.int_of_digits d)
                  else None
      | None => None
      end
  end.

(** The class [[-_.]]. *)
Definition is_separator (a : ascii) : bool :=
  (Ascii.eqb a "-" || Ascii.eqb a "_" || Ascii.eqb a ".")%bool.

(** [_parse_local_version] *)
Definition _parse_local_version (local : option string)
  : option (list local_part) :=
  match local with
  | Some l =>
      Some (map (fun part => if Py.str_isdigit part
                             then LInt (Py.int_of_digits part)
                             else LStr (Py.lower part))
                (Py.split_on is_separator l))
  | None => None
  end.

Definition digit : regex := Class Py.isdigit.
Definition sep : regex := Class is_separator.
(** [[a-z0-9]] under [re.IGNORECASE]. *)
Definition alnum : regex :=
  Class (fun a => (Py.isdigit a || Py.islower a || Py.isupper a)%bool).
Definition space : regex := Class Py.isspace.

(** [VERSION_PATTERN], read under [re.VERBOSE | re.IGNORECASE]. *)
Definition VERSION_PATTERN : regex :=
  seq [
    Opt (chr_i "v");
    seq [
      Opt (Cat (Named "epoch" (Plus digit)) (chr_i "!"));
      Named "release" (Cat (Plus digit) (Star (Cat (chr_i ".") (Plus digit))));
      Opt (Named "pre"
             (seq [ Opt sep;
                    Named "pre_l"
                      (alts [ word_i "alpha"; word_i "a"; word_i "beta";
                              word_i "b"; word_i "preview"; word_i "pre";
                              word_i "c"; word_i "rc" ]);
                    Opt sep;
                    Opt (Named "pre_n" (Plus digit)) ]));
      Opt (Named "post"
             (Alt (Cat (chr_i "-") (Named "post_n1" (Plus digit)))
                  (seq [ Opt sep;
                         Named "post_l"
                           (alts [ word_i "post"; word_i "rev"; word_i "r" ]);
                         Opt sep;
                         Opt (Named "post_n2" (Plus digit)) ])));
      Opt (Named "dev"
             (seq [ Opt sep;
                    Named "dev_l" (word_i "dev");
                    Opt sep;
                    Opt (Named "dev_n" (Plus digit)) ]))
    ];
    Opt (Cat (chr_i "+")
             (Named "local" (Cat (Plus alnum) (Star (Cat sep (Plus alnum))))))
  ].

(** [Version._regex]: the pattern anchored at both ends, white space
    allowed around it. *)
Definition _regex : regex :=
  seq [ Star space; VERSION_PATTERN; Star space; Eos ].

(** [Version]: the parsed pieces and the sorting key. *)
Record Version : Type := mkVersion {
  _version : _Version;
  _key : CmpKey
}.

(** [a or b] on two optional strings. *)
Definition or_else (a b : option string) : option string :=
  match a with
  | Some s => if Py.truthy s then a else b
  | None => b
  end.

(** [Version.__init__] *)
Definition Version_init (v : string) : result Version :=
  match search _regex v with
  | None => Raise (mkExn InvalidVersion ("Invalid version: '" ++ v ++ "'"))
  | Some m =>
      let e := match group "epoch" m with
               | Some d => if Py.truthy d then Py.int_of_digits d else 0%N
               | None => 0%N
               end in
      let r := match group "release" m with
               | Some s => map Py.int_of_digits (Py.split s ".")
               | None => []
               end in
      let pv := _parse_letter_version (group "pre_l" m) (group "pre_n" m) in
      let po := _parse_letter_version
                  (group "post_l" m)
                  (or_else (group "post_n1" m) (group "post_n2" m)) in
      let dv := _parse_letter_version (group "dev_l" m) (group "dev_n" m) in
      let lo := _parse_local_version (group "local" m) in
      Ok (mkVersion (mk_Version e r dv pv po lo) (_cmpkey e r pv po dv lo))
  end.

(** [parse] *)
Definition parse (v : string) : result Version := Version_init v.

(** [Version.__lt__] *)
Definition lt (a b : Version) : bool := key_ltb (_key a) (_key b).

End version.

(* ================================================================= *)
(** ** The world of one run *)

(** [logging] levels, with their numeric values. *)
Inductive level : Type := DEBUG | INFO | WARNING | ERROR.

Definition levelno (l : level) : Z :=
  match l with
  | DEBUG => 10
  | INFO => 20
  | WARNING => 30
  | ERROR => 40
  end%Z.


(** A record handed to the root logger: its level, the function that
    made the call ([LogRecord.funcName]) and the formatted message. *)
Record LogRecord : Type := mkLogRecord {
  levelname : level;
  funcName : string;
  message : string
}.

(** [subprocess.CompletedProcess] under [capture_output=True, text=True]. *)
Record CompletedProcess : Type := mkCompletedProcess {
  returncode : Z;
  stdout : string;
  stderr : string
}.

(** The state one run threads through its calls: how many external
    processes were started, the level of the root logger, the records
    it handled and the lines printed on standard output. *)
Record world : Type := mkWorld {
  started : nat;
  root_level : level;
  handled : list LogRecord;
  printed : list string
}.

(** The state at the start of the script:
    [logging.basicConfig(level=logging.INFO, ...)] has run. *)
Definition initial_world : world := mkWorld 0 INFO [] [].

(** A computation: it transforms the world and returns or raises. *)
Definition M (A : Type) : Type := world -> result A * world.

Definition ret {A} (a : A) : M A := fun w => (Ok a, w).

Definition raise {A} (e : exn) : M A := fun w => (Raise e, w).

Definition bind {A B} (m : M A) (k : A -> M B) : M B :=
  fun w =>
    match m w with
    | (Ok a, w') => k a w'
    | (Raise e, w') => (Raise e, w')
    end.

Notation "x <- c1 ;; c2" := (bind c1 (fun x => c2))
  (at level 61, c1 at next level, right associativity).
Notation "c1 ;; c2" := (bind c1 (fun _ => c2))
  (at level 61, right associativity).

(** A pure call that may raise. *)
Definition lift {A} (r : result A) : M A := fun w => (r, w).

(** [try: body except ...]: [handlers e] is the first clause that
    matches [e], or [None] when no clause does and [e] propagates. *)
Definition try_except {A} (body : M A) (handlers : exn -> option (M A)) : M A :=
  fun w =>
    match body w with
    | (Ok a, w') => (Ok a, w')
    | (Raise e, w') =>
        match handlers e with
        | Some h => h w'
        | None => (Raise e, w')
        end
    end.

(** [for x in xs: acc = body(x, acc)] *)
Fixpoint for_each {A S} (xs : list A) (body : A -> S -> M S) (acc : S) : M S :=
  match xs with
  | [] => ret acc
  | x :: xs' => acc' <- body x acc ;; for_each xs' body acc'
  end.

Module logging.

(** [Logger.isEnabledFor] on the root logger. *)
Definition isEnabledFor (l : level) (w : world) : bool :=
  (levelno (root_level w) <=? levelno l)%Z.

Definition emit (l : level) (fn msg : string) : M unit :=
  fun w =>
    (Ok tt,
     if isEnabledFor l w
     then mkWorld (started w) (root_level w)
                  (handled w ++ [mkLogRecord l fn msg])%list (printed w)
     else w).

Definition info := emit INFO.
Definition warning := emit WARNING.
Definition error := emit ERROR.

(** [logging.getLogger().setLevel(l)] *)
Definition setLevel (l : level) : M unit :=
  fun w => (Ok tt, mkWorld (started w) l (handled w) (printed w)).

End logging.

(** [print(line)] *)
Definition print (line : string) : M unit :=
  fun w =>
    (Ok tt, mkWorld (started w) (root_level w) (handled w)
             (printed w ++ [line])%list).

(* ================================================================= *)
(** ** [main.py] *)

(** One entry of [pip list --format=json]. *)
Record package : Type := mkPackage {
  pkg_name : string;
  pkg_version : string
}.

(** One entry of [updates_available]. *)
Record update : Type := mkUpdate {
  name : string;
  installed_version : string;
  latest_version : string
}.

(** The namespace [setup_argparse] returns. *)
Record Namespace : Type := mkNamespace {
  requirements : string;
  project_path : string;
  verbose : bool;
  check_security : bool
}.

Section Program.

(** The operating system: what the [n]-th process started by the run
    yields for its argument vector, a completed process or the
    exception [subprocess.run] raises before any exit status is known
    ([FileNotFoundError] when the executable is missing). *)
Variable os_exec : nat -> list string -> result CompletedProcess.

(** [json.loads], at the type of what [pip list --format=json]
    prints: an array of objects with string fields [name] and
    [version]. *)
Variable json_loads : string -> result (list package).

(** [str(e)] for the [CalledProcessError] that [check=True] builds
    from the command and its exit status. *)
Variable str_CalledProcessError : list string -> Z -> string.

(** [subprocess.run(command, capture_output=True, text=True, check=check)] *)
Definition subprocess_run (command : list string) (check : bool)
  : M CompletedProcess :=
  fun w =>
    let w' := mkWorld (S (started w)) (root_level w) (handled w) (printed w) in
    match os_exec (started w) command with
    | Ok p =>
        if (check && negb (returncode p =? 0)%Z)%bool
        then (Raise (mkExn CalledProcessError
                           (str_CalledProcessError command (returncode p))),
              w')
        else (Ok p, w')
    | Raise e => (Raise e, w')
    end.

Definition get_installed_packages (project_path : string)
  : M (option (list package)) :=
  let fn := "get_installed_packages" in
  try_except
    (let command := ["pip"; "list"; "--format=json"] in
     let command :=
       if negb (String.eqb project_path ".")
       then (command ++ ["--path"; project_path])%list
       else command in
     result <- subprocess_run command true ;;
     installed_packages <- lift (json_loads (stdout result)) ;;
     ret (Some installed_packages))
    (fun e =>
       match exn_kind e with
       | CalledProcessError =>
           Some (logging.error fn
                   ("Error listing installed packages: " ++ exn_str e) ;;
                 ret None)
       | JSONDecodeError =>
           Some (logging.error fn
                   ("Error decoding JSON output from pip: " ++ exn_str e) ;;
                 ret None)
       | FileNotFoundError =>
           Some (logging.error fn
                   "pip not found. Ensure pip is installed and in your PATH." ;;
                 ret None)
       | _ =>
           Some (logging.error fn
                   ("An unexpected error occurred: " ++ exn_str e) ;;
                 ret None)
       end).

(** The part of [get_latest_package_version] that reads the error
    output of the failed install. *)
Definition latest_from_output (package_name output : string)
  : M (option string) :=
  let fn := "get_latest_package_version" in
  let undetermined :=
    logging.warning fn
      ("Could not determine the latest version for " ++ package_name) ;;
    ret None in
  let start_index := Py.find output "(from versions:" 0 in
  if (start_index =? -1)%Z then undetermined
  else
    let start_index := (start_index + Py.len "(from versions:")%Z in
    let end_index := Py.find output ")" start_index in
    if (end_index =? -1)%Z then undetermined
    else
      let versions_str := Py.strip (Py.slice output start_index end_index) in
      let versions := map Py.strip (Py.split versions_str ",") in
      match Py.last_item versions with
      | None => undetermined
      | Some v => ret (Some v)
      end.

Definition get_latest_package_version (package_name : string)
  : M (option string) :=
  let fn := "get_latest_package_version" in
  try_except
    (result <- subprocess_run
                 ["pip"; "install"; package_name ++ "==NonExistentVersion"]
                 false ;;
     let output := stderr result in
     latest_from_output package_name output)
    (fun e =>
       match exn_kind e with
       | CalledProcessError =>
           Some (logging.error fn
                   ("Error getting latest version for " ++ package_name
                    ++ ": " ++ exn_str e) ;;
                 ret None)
       | FileNotFoundError =>
           Some (logging.error fn
                   "pip not found. Ensure pip is installed and in your PATH." ;;
                 ret None)
       | _ =>
           Some (logging.error fn
                   ("An unexpected error occurred: " ++ exn_str e) ;;
                 ret None)
       end).

(** [if latest_version:] is true for a string that is not empty. *)
Definition truthy_opt (s : option string) : bool :=
  match s with
  | Some v => Py.truthy v
  | None => false
  end.

(** The body of the loop of [check_for_updates], on one package. *)
Definition check_package (package : package) (updates_available : list update)
  : M (list update) :=
  let fn := "check_for_updates" in
  let package_name := pkg_name package in
  let installed_version := pkg_version package in
  latest_version <- get_latest_package_version package_name ;;
  match latest_version with
  | Some latest =>
      if Py.truthy latest then
        try_except
          (vi <- lift (version.parse installed_version) ;;
           vl <- lift (version.parse latest) ;;
           if version.lt vi vl then
             let updates_available :=
               (updates_available
                  ++ [mkUpdate package_name installed_version latest])%list in
             logging.info fn
               ("Update available for " ++ package_name
                ++ ": Installed version " ++ installed_version
                ++ ", latest version " ++ latest) ;;
             ret updates_available
           else ret updates_available)
          (fun e =>
             match exn_kind e with
             | InvalidVersion =>
                 Some (logging.warning fn
                         ("Invalid version format for " ++ package_name
                          ++ ": " ++ exn_str e) ;;
                       ret updates_available)
             | _ => None
             end)
      else
        logging.warning fn
          ("Could not retrieve latest version for " ++ package_name
           ++ ". Skipping update check.") ;;
        ret updates_available
  | None =>
      logging.warning fn
        ("Could not retrieve latest version for " ++ package_name
         ++ ". Skipping update check.") ;;
      ret updates_available
  end.

Definition check_for_updates (installed_packages : option (list package))
  : M (list update) :=
  let updates_available := [] in
  match installed_packages with
  | None =>
      logging.error "check_for_updates"
        "No installed packages found. Exiting." ;;
      ret updates_available
  | Some packages => for_each packages check_package updates_available
  end.

Definition check_security_vulnerabilities (project_path : string) : M unit :=
  let fn := "check_security_vulnerabilities" in
  try_except
    (let command := ["safety"; "check"; "--full-report"] in
     let command :=
       if negb (String.eqb project_path ".")
       then (command ++ ["--project"; project_path])%list
       else command in
     result <- subprocess_run command false ;;
     if (returncode result =? 0)%Z then
       logging.info fn "No known security vulnerabilities found."
     else if (returncode result =? 1)%Z then
       logging.warning fn "Security vulnerabilities found:" ;;
       logging.warning fn (stdout result)
     else
       logging.error fn
         ("Safety check failed with return code "
          ++ Py.str_of_int (returncode result) ++ ": " ++ stderr result))
    (fun e =>
       match exn_kind e with
       | FileNotFoundError =>
           Some (logging.error fn
                   "Safety not found. Please install it using: pip install safety")
       | _ =>
           Some (logging.error fn
                   ("An unexpected error occurred during safety check: "
                    ++ exn_str e))
       end).

(** The line [main] prints for one update. *)
Definition update_line (u : update) : string :=
  "- " ++ name u ++ ": Installed version " ++ installed_version u
  ++ ", latest version " ++ latest_version u.

(** The report of [main]: what it prints for [updates_available]. *)
Definition print_report (updates_available : list update) : M unit :=
  match updates_available with
  | _ :: _ =>
      print "Updates available:" ;;
      for_each updates_available
               (fun u (_ : unit) => print (update_line u)) tt
  | [] => print "All dependencies are up to date."
  end.

(** [if installed_packages:] is true for a list that is not empty. *)
Definition truthy_packages (installed_packages : option (list package)) : bool :=
  match installed_packages with
  | Some (_ :: _) => true
  | _ => false
  end.

(** [main], from the namespace [setup_argparse] returned. *)
Definition main (args : Namespace) : M unit :=
  (if verbose args then logging.setLevel DEBUG else ret tt) ;;
  logging.info "main" "Starting dependency update check..." ;;
  installed_packages <- get_installed_packages (project_path args) ;;
  (if truthy_packages installed_packages then
     updates_available <- check_for_updates installed_packages ;;
     print_report updates_available
   else
     logging.error "main"
       "Failed to retrieve installed packages. Check logs for details.") ;;
  (if check_security args then
     logging.info "main" "Checking for security vulnerabilities..." ;;
     check_security_vulnerabilities (project_path args)
   else ret tt) ;;
  logging.info "main" "Dependency update check complete.".

(** The script: [main()] from the initial state.  The interpreter
    exits with status 0 when [main] returns and with status 1 when an
    exception escapes it. *)
Definition run_script (args : Namespace) : result unit * world :=
  main args initial_world.


End Program.

(* ================================================================= *)
(** ** A sample environment *)

Module Sample.

Definition pip_error (name versions : string) : string :=
  "ERROR: Could not find a version that satisfies the requirement "
  ++ name ++ "==NonExistentVersion (from versions: " ++ versions ++ ")".

(** A machine with four packages: [foo] is behind, [bar] is current,
    [baz] has an installed version that is no version, and the index
    does not know [qux]. *)
Definition os_exec (n : nat) (argv : list string) : result CompletedProcess :=
  match argv with
  | ["pip"; "list"; "--format=json"] => Ok (mkCompletedProcess 0 "LIST" "")
  | ["pip"; "install"; spec] =>
      if String.eqb spec "foo==NonExistentVersion"
      then Ok (mkCompletedProcess 1 "" (pip_error "foo" "1.2.0, 1.3.0"))
      else if String.eqb spec "bar==NonExistentVersion"
      then Ok (mkCompletedProcess 1 "" (pip_error "bar" "1.9.0, 2.0.0"))
      else if String.eqb spec "baz==NonExistentVersion"
      then Ok (mkCompletedProcess 1 "" (pip_error "baz" "0.1, 0.2"))
      else Ok (mkCompletedProcess 1 ""
                 "ERROR: No matching distribution found")
  | "safety" :: _ => Ok (mkCompletedProcess 1 "REPORT" "")
  | _ => Raise (mkExn FileNotFoundError "No such file or directory")
  end.

Definition foo := mkPackage "foo" "1.2.0".
Definition bar := mkPackage "bar" "2.0.0".
Definition baz := mkPackage "baz" "one.two".
Definition qux := mkPackage "qux" "0.5".

Definition json_loads (s : string) : result (list package) :=
  if String.eqb s "LIST" then Ok [foo; bar; baz; qux]
  else Raise (mkExn JSONDecodeError "Expecting value").

Definition str_CalledProcessError (cmd : list string) (rc : Z) : string :=
  "Command returned non-zero exit status " ++ Py.str_of_int rc ++ ".".

(** A machine without [pip] and without [safety]. *)
Definition bare_exec (n : nat) (argv : list string) : result CompletedProcess :=
  Raise (mkExn FileNotFoundError "No such file or directory").

(** A machine on which [pip list] prints an empty array. *)
Definition empty_loads (s : string) : result (list package) := Ok [].

Definition args : Namespace := mkNamespace "requirements.txt" "." false true.

End Sample.

(* ================================================================= *)
(** ** The order on versions *)

(** The [i]-th release segment, a missing segment counting as zero. *)
Definition segment (r : list N) (i : nat) : N := nth i r 0%N.



(* ================================================================= *)
(** ** What the claims speak of *)

(** The world after one more process was started and the records
    [recs] were handled. *)
Definition advance (w : world) (recs : list LogRecord) : world :=
  mkWorld (S (started w)) (root_level w) (handled w ++ recs)%list (printed w).

(** The world after the records [recs] were handled. *)
Definition extend (w : world) (recs : list LogRecord) : world :=
  mkWorld (started w) (root_level w) (handled w ++ recs)%list (printed w).

(** The records a given function handed to the logger. *)
Definition logged_by (fn : string) (recs : list LogRecord) : list LogRecord :=
  filter (fun r => String.eqb (funcName r) fn) recs.

(** Whether a version string parses. *)
Definition parses (s : string) : bool :=
  match version.parse s with
  | Ok _ => true
  | Raise _ => false
  end.

(** An update candidate: the Resolver's answer is determined, both
    version strings parse and the installed version is strictly less
    than the latest. *)
Definition candidate (p : package) (answer : option string) : option update :=
  match answer with
  | Some latest =>
      match version.parse (pkg_version p), version.parse latest with
      | Ok vi, Ok vl =>
          if version.lt vi vl
          then Some (mkUpdate (pkg_name p) (pkg_version p) latest)
          else None
      | _, _ => None
      end
  | None => None
  end.

(** Whether a package with its answer is outdated, as a test. *)
Definition outdated (pa : package * option string) : bool :=
  match snd pa with
  | Some latest =>
      match version.parse (pkg_version (fst pa)), version.parse latest with
      | Ok vi, Ok vl => version.lt vi vl
      | _, _ => false
      end
  | None => false
  end.

(** The record of an outdated package: its name, its installed version
    and the latest version the Resolver answered. *)
Definition as_update (pa : package * option string) : update :=
  mkUpdate (pkg_name (fst pa)) (pkg_version (fst pa))
           (match snd pa with Some latest => latest | None => "" end).

(** The ordered subsequence of the packages that are outdated, each
    paired with its own answer, as update records. *)
Definition expected_candidates (packages : list package)
           (answers : list (option string)) : list update :=
  map as_update (filter outdated (combine packages answers)).

(** A package the Detector cannot compare: its installed version string
    or the latest version string the Resolver answered does not parse. *)
Definition unparseable (p : package) (answer : option string) : Prop :=
  parses (pkg_version p) = false
  \/ exists latest, answer = Some latest /\ parses latest = false.

(** The line of the report for one candidate as the specification words
    it: [name: installed_version -> latest_version]. *)
Definition spec_line (u : update) : string :=
  name u ++ ": " ++ installed_version u ++ " -> " ++ latest_version u.

(** The lines of the report as [main] prints them: a heading and one
    line per update, or the one message that all is up to date. *)
Definition report_lines (updates : list update) : list string :=
  match updates with
  | [] => ["All dependencies are up to date."]
  | _ :: _ =>
      "Updates available:"
        :: map (fun u => "- " ++ name u ++ ": Installed version "
                         ++ installed_version u ++ ", latest version "
                         ++ latest_version u) updates
  end.


Section Listed.
Variable os_exec : nat -> list string -> result CompletedProcess.
Variable json_loads : string -> result (list package).
Variable str_CalledProcessError : list string -> Z -> string.

(** What the Package Lister returns in a run of the script, where its
    listing is the first process: the packages, or [None] when the
    listing failed. *)
Definition listed (args : Namespace) : option (list package) :=
  match fst (get_installed_packages os_exec json_loads str_CalledProcessError
               (project_path args) initial_world) with
  | Ok answer => answer
  | Raise _ => None
  end.

(** The command line of the scanner for a project path. *)
Definition safety_command (project_path : string) : list string :=
  if String.eqb project_path "."
  then ["safety"; "check"; "--full-report"]
  else ["safety"; "check"; "--full-report"; "--project"; project_path].
(** The last part of [main], from the optional security check on. *)
Definition security_phase (args : Namespace) : M unit :=
  bind (if check_security args then
          bind (logging.info "main" "Checking for security vulnerabilities...")
               (fun _ => check_security_vulnerabilities
                           os_exec str_CalledProcessError (project_path args))
        else ret tt)
       (fun _ => logging.info "main" "Dependency update check complete.").

Definition start_record : LogRecord :=
  mkLogRecord INFO "main" "Starting dependency update check...".
Definition failed_record : LogRecord :=
  mkLogRecord ERROR "main"
    "Failed to retrieve installed packages. Check logs for details.".
Definition checking_record : LogRecord :=
  mkLogRecord INFO "main" "Checking for security vulnerabilities...".
Definition complete_record : LogRecord :=
  mkLogRecord INFO "main" "Dependency update check complete.".
End Listed.

(** The marker that opens the list of versions in the error output of
    the package manager. *)
Definition marker : string := "(from versions:".

(** [sub] occurs in [s] at index [i]. *)
Definition occurs_at (sub s : string) (i : nat) : Prop :=
  exists before after,
    s = before ++ sub ++ after /\ String.length before = i.

(** [sub] occurs somewhere in [s]. *)
Definition occurs (sub s : string) : Prop := exists i, occurs_at sub s i.

(** The character [c] occurs in [s]. *)
Definition has_char (c : ascii) (s : string) : Prop :=
  In c (list_ascii_of_string s).

(** The warning of a lookup that could not be determined. *)
Definition undetermined_record (package_name : string) : LogRecord :=
  mkLogRecord WARNING "get_latest_package_version"
              ("Could not determine the latest version for " ++ package_name).

(** [m] returns [a] from every world and leaves nothing behind but
    records made by the function [fn]. *)
Definition log_only {A} (m : M A) (a : A) (fn : string) : Prop :=
  forall w, exists recs,
    m w = (Ok a, extend w recs)
    /\ Forall (fun r => funcName r = fn) recs.

Section Answers.
Variable os_exec : nat -> list string -> result CompletedProcess.
Variable str_CalledProcessError : list string -> Z -> string.

(** The Resolver's answer when its lookup is the [n]-th process of
    the run: what [get_latest_package_version] returns there. *)
Definition resolver_answer (n : nat) (package_name : string) : option string :=
  match fst (get_latest_package_version os_exec str_CalledProcessError
               package_name (mkWorld n INFO [] [])) with
  | Ok answer => answer
  | Raise _ => None
  end.

(** The answers a run obtains for a list of packages, the first
    lookup being process [n]. *)
Fixpoint answers_from (n : nat) (packages : list package)
  : list (option string) :=
  match packages with
  | [] => []
  | p :: ps => resolver_answer n (pkg_name p) :: answers_from (S n) ps
  end.
End Answers.

(* ================================================================= *)
(** ** Further notions, for the rest of the program *)

(** The command line of the listing for a project path. *)
Definition pip_list_command (project_path : string) : list string :=
  if String.eqb project_path "."
  then ["pip"; "list"; "--format=json"]
  else ["pip"; "list"; "--format=json"; "--path"; project_path].

(** The command line of the lookup for a package. *)
Definition pip_install_command (package_name : string) : list string :=
  ["pip"; "install"; package_name ++ "==NonExistentVersion"].

(** The warning of the Detector for a package without an answer. *)
Definition skipping_record (package_name : string) : LogRecord :=
  mkLogRecord WARNING "check_for_updates"
    ("Could not retrieve latest version for " ++ package_name
     ++ ". Skipping update check.").

(** The records among [recs] that the root logger handles in [w]. *)
Definition emitted (w : world) (recs : list LogRecord) : list LogRecord :=
  filter (fun r => logging.isEnabledFor (levelname r) w) recs.


(** The record that announces an update. *)
Definition announce (u : update) : LogRecord :=
  mkLogRecord INFO "check_for_updates"
    ("Update available for " ++ name u ++ ": Installed version "
     ++ installed_version u ++ ", latest version " ++ latest_version u).


(** What the Detector itself logs for one package and its answer. *)
Definition detector_records (pa : package * option string) : list LogRecord :=
  let fn := "check_for_updates" in
  let p := fst pa in
  match snd pa with
  | Some latest =>
      if Py.truthy latest then
        match version.parse (pkg_version p) with
        | Raise e =>
            [mkLogRecord WARNING fn
               ("Invalid version format for " ++ pkg_name p ++ ": "
                ++ exn_str e)]
        | Ok vi =>
            match version.parse latest with
            | Raise e =>
                [mkLogRecord WARNING fn
                   ("Invalid version format for " ++ pkg_name p ++ ": "
                    ++ exn_str e)]
            | Ok vl =>
                if version.lt vi vl
                then [announce (mkUpdate (pkg_name p) (pkg_version p) latest)]
                else []
            end
        end
      else [skipping_record (pkg_name p)]
  | None => [skipping_record (pkg_name p)]
  end.

(** [eqb] is symmetric and, on items that are not equal, [ltb] never
    holds both ways. *)
Definition one_way {A} (eqb ltb : A -> A -> bool) : Prop :=
  (forall x y, eqb x y = eqb y x)
  /\ (forall x y, eqb x y = false -> ltb x y = true -> ltb y x = false).

(** The world with the level of the root logger set to [l]. *)
Definition relevel (l : level) (w : world) : world :=
  mkWorld (started w) l (handled w) (printed w).

(** A computation that cannot tell the level [DEBUG] from the level
    [INFO]: from a world at [INFO] it returns the same value and leaves
    the same world, but for the level, as from that world at [DEBUG];
    and it leaves the level alone. *)
Definition level_blind {A} (m : M A) : Prop :=
  forall w, root_level w = INFO ->
            m (relevel DEBUG w) = (fst (m w), relevel DEBUG (snd (m w)))
            /\ root_level (snd (m w)) = INFO.

(** More machines to try the program on. *)
Module Fixtures.

(** Every process ends with status 0, some noise on standard output and
    the list of versions of [foo] on the error output. *)
Definition quiet_exec (n : nat) (argv : list string) : result CompletedProcess :=
  Ok (mkCompletedProcess 0 "noise" (Sample.pip_error "foo" "1.2.0, 1.3.0")).

(** The index knows no version of any package: the list is blank. *)
Definition blank_exec (n : nat) (argv : list string) : result CompletedProcess :=
  Ok (mkCompletedProcess 1 "" "ERROR: no versions (from versions: )").

(** [foo], installed ahead of the index, and installed with a padded
    release. *)
Definition foo_ahead := mkPackage "foo" "1.10.0".
Definition foo_padded := mkPackage "foo" "1.3".


End Fixtures.

(* ================================================================= *)
(** * Properties *)

Section VersionOrder.
Import version.

Lemma parse_key (s : string) (v : Version) :
  parse s = Ok v ->
  _key v = _cmpkey (epoch (_version v)) (release (_version v))
                   (pre (_version v)) (post (_version v))
                   (dev (_version v)) (local (_version v)).
Proof.
  unfold parse, Version_init.
  destruct (re.search _regex s); intros H; inversion H; reflexivity.
Qed.

Lemma dropwhile_zero_zeros (l : list N) :
  exists k, l = (repeat 0%N k ++ dropwhile_zero l)%list.
Proof.
  induction l as [|x l IH]; simpl.
  - exists 0; reflexivity.
  - destruct (N.eqb_spec x 0) as [->|Hx].
    + destruct IH as [k Hk]. exists (S k). simpl. now rewrite <- Hk.
    + exists 0; reflexivity.
Qed.

Lemma segment_app_zeros (l : list N) (k i : nat) :
  segment (l ++ repeat 0%N k) i = segment l i.
Proof.
  unfold segment.
  destruct (Nat.lt_ge_cases i (length l)) as [Hlt|Hge].
  - now rewrite app_nth1.
  - rewrite app_nth2 by assumption.
    rewrite (nth_overflow l) by assumption.
    apply nth_repeat.
Qed.

(** Dropping the trailing zeros leaves every segment as it was. *)
Lemma segment_trim (r : list N) (i : nat) :
  segment (rev (dropwhile_zero (rev r))) i = segment r i.
Proof.
  destruct (dropwhile_zero_zeros (rev r)) as [k Hk].
  remember (dropwhile_zero (rev r)) as d eqn:Hd.
  assert (Hr : r = (rev d ++ repeat 0%N k)%list).
  { rewrite <- (rev_involutive r), Hk, rev_app_distr, rev_repeat.
    reflexivity. }
  rewrite Hr. symmetry; apply segment_app_zeros.
Qed.

Lemma tuple_eqb_refl {A} (eqb : A -> A -> bool) (xs : list A) :
  (forall x, eqb x x = true) -> tuple_eqb eqb xs xs = true.
Proof.
  intros Hr; induction xs as [|x xs IH]; simpl; [reflexivity|].
  now rewrite Hr, IH.
Qed.




Lemma dropwhile_zero_head (l : list N) :
  dropwhile_zero l = [] \/ exists x t, dropwhile_zero l = x :: t /\ x <> 0%N.
Proof.
  induction l as [|x l IH]; simpl; [left; reflexivity|].
  destruct (N.eqb_spec x 0) as [->|Hx]; [exact IH|].
  right. exists x, l. split; [reflexivity|exact Hx].
Qed.

(** A release without its trailing zeros is empty or ends with a segment
    that is not zero. *)
Lemma trim_last (r : list N) :
  rev (dropwhile_zero (rev r)) = []
  \/ exists t x, rev (dropwhile_zero (rev r)) = (t ++ [x])%list /\ x <> 0%N.
Proof.
  destruct (dropwhile_zero_head (rev r)) as [->|[x [t [-> Hx]]]].
  - left; reflexivity.
  - right. exists (rev t), x. split; [reflexivity|exact Hx].
Qed.

Lemma segment_beyond (l : list N) (i : nat) :
  List.length l <= i -> segment l i = 0%N.
Proof. intros H. unfold segment. now apply nth_overflow. Qed.

Lemma segment_last (t : list N) (x : N) :
  segment (t ++ [x]) (List.length t) = x.
Proof.
  unfold segment. rewrite app_nth2 by lia. now rewrite Nat.sub_diag.
Qed.

Lemma trimmed_length_le (xs ys : list N) :
  (forall i, segment xs i = segment ys i) ->
  (ys = [] \/ exists t x, ys = (t ++ [x])%list /\ x <> 0%N) ->
  List.length ys <= List.length xs.
Proof.
  intros Hseg [->|[t [x [-> Hx]]]]; [simpl; lia|].
  destruct (Nat.le_gt_cases (List.length (t ++ [x])) (List.length xs))
    as [Hle|Hgt]; [exact Hle|].
  exfalso. apply Hx.
  rewrite <- (segment_last t x), <- Hseg.
  apply segment_beyond. rewrite length_app in Hgt. simpl in Hgt. lia.
Qed.

(** Two releases with the same segments, missing ones counting as zero,
    have the same key. *)
Lemma trim_same_segments (r1 r2 : list N) :
  (forall i, segment r1 i = segment r2 i) ->
  rev (dropwhile_zero (rev r1)) = rev (dropwhile_zero (rev r2)).
Proof.
  intros Hseg.
  assert (H12 : forall i, segment (rev (dropwhile_zero (rev r1))) i
                          = segment (rev (dropwhile_zero (rev r2))) i)
    by (intros i; now rewrite !segment_trim).
  assert (Hlen : List.length (rev (dropwhile_zero (rev r1)))
                 = List.length (rev (dropwhile_zero (rev r2)))).
  { apply Nat.le_antisymm.
    - apply trimmed_length_le; [intros i; symmetry; apply H12 | apply trim_last].
    - apply trimmed_length_le; [exact H12 | apply trim_last]. }
  apply (nth_ext _ _ 0%N 0%N Hlen). intros n _. apply H12.
Qed.

Lemma lv_eqb_refl (p : letter_version) : lv_eqb p p = true.
Proof.
  unfold lv_eqb, pair_eqb. now rewrite String.eqb_refl, N.eqb_refl.
Qed.

End VersionOrder.



(* ================================================================= *)
(** ** Computations that only log *)

Lemma extend_nil (w : world) : extend w [] = w.
Proof. destruct w; unfold extend; simpl. now rewrite app_nil_r. Qed.

Lemma extend_extend (w : world) (r1 r2 : list LogRecord) :
  extend (extend w r1) r2 = extend w (r1 ++ r2).
Proof. unfold extend; simpl. now rewrite app_assoc. Qed.

Lemma advance_extend (w : world) (r1 r2 : list LogRecord) :
  extend (advance w r1) r2 = advance w (r1 ++ r2).
Proof. unfold extend, advance; simpl. now rewrite app_assoc. Qed.

Lemma emit_eq (l : level) (fn msg : string) (w : world) :
  logging.emit l fn msg w
  = (Ok tt, extend w (if logging.isEnabledFor l w
                      then [mkLogRecord l fn msg] else [])).
Proof.
  unfold logging.emit. destruct (logging.isEnabledFor l w).
  - reflexivity.
  - now rewrite extend_nil.
Qed.

Lemma log_only_ret {A} (a : A) (fn : string) : log_only (ret a) a fn.
Proof. intros w. exists []. rewrite extend_nil. split; [reflexivity|constructor]. Qed.

Lemma log_only_emit (l : level) (fn msg : string) :
  log_only (logging.emit l fn msg) tt fn.
Proof.
  intros w. rewrite emit_eq. eexists; split; [reflexivity|].
  destruct (logging.isEnabledFor l w); repeat constructor.
Qed.

Lemma log_only_bind {A B} (m : M A) (k : A -> M B) (a : A) (b : B) (fn : string) :
  log_only m a fn -> log_only (k a) b fn -> log_only (bind m k) b fn.
Proof.
  intros Hm Hk w. unfold bind.
  destruct (Hm w) as [r1 [E1 F1]]. rewrite E1.
  destruct (Hk (extend w r1)) as [r2 [E2 F2]]. rewrite E2.
  exists (r1 ++ r2)%list. rewrite extend_extend. split; [reflexivity|].
  apply Forall_app; split; assumption.
Qed.

Section ProgramFacts.
Variable os_exec : nat -> list string -> result CompletedProcess.
Variable json_loads : string -> result (list package).
Variable str_CalledProcessError : list string -> Z -> string.

Local Abbreviation resolver :=
  (get_latest_package_version os_exec str_CalledProcessError).
Local Abbreviation detector := (check_package os_exec str_CalledProcessError).

Lemma latest_from_output_log_only (package_name output : string) :
  exists answer,
    log_only (latest_from_output package_name output) answer
             "get_latest_package_version".
Proof.
  unfold latest_from_output.
  set (undetermined := bind _ _).
  assert (Hu : log_only undetermined None "get_latest_package_version").
  { apply log_only_bind with (a := tt);
      [apply log_only_emit | apply log_only_ret]. }
  clearbody undetermined.
  destruct (_ =? -1)%Z; [eexists; exact Hu|].
  destruct (_ =? -1)%Z; [eexists; exact Hu|].
  destruct (Py.last_item _); [|eexists; exact Hu].
  eexists. apply log_only_ret.
Qed.

Lemma tick_extend (w : world) (recs : list LogRecord) :
  extend (mkWorld (S (started w)) (root_level w) (handled w) (printed w)) recs
  = advance w recs.
Proof. reflexivity. Qed.

Lemma resolver_run (package_name : string) (n : nat) :
  exists answer, forall rl h pr, exists recs,
    resolver package_name (mkWorld n rl h pr)
    = (Ok answer, advance (mkWorld n rl h pr) recs)
    /\ Forall (fun r => funcName r = "get_latest_package_version") recs.
Proof.
  unfold get_latest_package_version.
  destruct (os_exec n ["pip"; "install"; package_name ++ "==NonExistentVersion"])
    as [p|e] eqn:E.
  - destruct (latest_from_output_log_only package_name (stderr p))
      as [answer Hlog].
    exists answer. intros rl h pr.
    destruct (Hlog (mkWorld (S n) rl h pr)) as [recs [E1 F1]].
    exists recs. split; [|assumption].
    unfold try_except, bind, subprocess_run. simpl started.
    rewrite E. simpl. rewrite E1. reflexivity.
  - exists None. intros rl h pr.
    unfold try_except, bind at 1, subprocess_run. simpl started.
    rewrite E.
    destruct (exn_kind e);
      match goal with
      | |- context [bind (logging.error ?fn ?msg) ?k] =>
          assert (Hlog : log_only (bind (logging.error fn msg) k) None fn)
            by (apply log_only_bind with (a := tt);
                [apply log_only_emit | apply log_only_ret])
      end;
      destruct (Hlog (mkWorld (S n) rl h pr)) as [recs [E1 F1]];
      exists recs; (split; [|assumption]);
      simpl; simpl in E1; rewrite E1; reflexivity.
Qed.

(** The Resolver always returns; its answer depends on the world only
    through the process it starts, and it leaves only records of its
    own. *)
Lemma resolver_effect (package_name : string) (w : world) :
  exists recs,
    resolver package_name w
    = (Ok (resolver_answer os_exec str_CalledProcessError
                           (started w) package_name),
       advance w recs)
    /\ Forall (fun r => funcName r = "get_latest_package_version") recs.
Proof.
  destruct (resolver_run package_name (started w)) as [answer H].
  unfold resolver_answer.
  destruct (H INFO [] []) as [r0 [E0 _]].
  rewrite E0. simpl fst.
  destruct w as [n rl h pr]. simpl started. apply H.
Qed.

Lemma parse_raise_kind (v : string) (e : exn) :
  version.parse v = Raise e -> exn_kind e = InvalidVersion.
Proof.
  unfold version.parse, version.Version_init.
  destruct (re.search _ _); intros H; inversion H; reflexivity.
Qed.

Lemma parses_empty : parses "" = false.
Proof. vm_compute. reflexivity. Qed.

Lemma isEnabledFor_advance (l : level) (w : world) (recs : list LogRecord) :
  logging.isEnabledFor l (advance w recs) = logging.isEnabledFor l w.
Proof. reflexivity. Qed.

Lemma logged_by_app (fn : string) (r1 r2 : list LogRecord) :
  logged_by fn (r1 ++ r2) = (logged_by fn r1 ++ logged_by fn r2)%list.
Proof. apply filter_app. Qed.

Lemma logged_by_other (fn fn' : string) (recs : list LogRecord) :
  fn' <> fn -> Forall (fun r => funcName r = fn') recs -> logged_by fn recs = [].
Proof.
  intros Hne. induction 1 as [|r recs Hr _ IH]; simpl; [reflexivity|].
  rewrite Hr. destruct (String.eqb_spec fn' fn); [contradiction|exact IH].
Qed.


(** One turn of the loop of [check_for_updates].  The turn returns,
    starts one process, appends the package when it is a candidate and
    nothing otherwise; the records it leaves are the Resolver's
    followed by the Detector's own, and for a package that is skipped
    the Detector's own are exactly one warning. *)
Lemma check_package_effect (p : package) (acc : list update) (w : world) :
  let answer := resolver_answer os_exec str_CalledProcessError
                                (started w) (pkg_name p) in
  exists r_res r_det,
    detector p acc w
    = (Ok (acc ++ match candidate p answer with
                  | Some u => [u]
                  | None => []
                  end)%list,
       advance w (r_res ++ r_det))
    /\ Forall (fun r => funcName r = "get_latest_package_version") r_res
    /\ Forall (fun r => funcName r = "check_for_updates") r_det
    /\ (answer = None \/ unparseable p answer ->
        logging.isEnabledFor WARNING w = true ->
        exists msg, r_det = [mkLogRecord WARNING "check_for_updates" msg]).
Proof.
  intros answer.
  destruct (resolver_effect (pkg_name p) w) as [r_res [E F]].
  fold answer in E. exists r_res.
  unfold check_package, bind at 1.
  rewrite E. clear E.
  assert (Hskip : forall msg,
    exists r_det,
      bind (logging.warning "check_for_updates" msg) (fun _ => ret acc)
           (advance w r_res)
      = (Ok acc, advance w (r_res ++ r_det))
      /\ Forall (fun r => funcName r = "check_for_updates") r_det
      /\ (logging.isEnabledFor WARNING w = true ->
          exists m, r_det = [mkLogRecord WARNING "check_for_updates" m])).
  { intros msg. unfold bind, logging.warning. rewrite emit_eq.
    rewrite isEnabledFor_advance, advance_extend. unfold ret.
    eexists. split; [reflexivity|]. split.
    - destruct (logging.isEnabledFor WARNING w); repeat constructor.
    - intros ->. eexists; reflexivity. }
  destruct answer as [latest|] eqn:Ea.
  - destruct (Py.truthy latest) eqn:Et.
    + unfold try_except, bind at 1, lift, candidate, unparseable, parses.
      destruct (version.parse (pkg_version p)) as [vi|e1] eqn:E1.
      * unfold bind at 1.
        destruct (version.parse latest) as [vl|e2] eqn:E2.
        -- destruct (version.lt vi vl).
           ++ unfold bind, logging.info. rewrite emit_eq.
              rewrite isEnabledFor_advance, advance_extend. unfold ret.
              eexists. split; [reflexivity|]. split; [exact F|]. split.
              ** destruct (logging.isEnabledFor INFO w); repeat constructor.
              ** intros [H|[H|[l [Hl H]]]]; try discriminate.
                 inversion Hl; subst l. rewrite E2 in H. discriminate.
           ++ unfold ret. exists []. rewrite !app_nil_r.
              split; [reflexivity|]. split; [exact F|]. split; [constructor|].
              intros [H|[H|[l [Hl H]]]]; try discriminate.
              inversion Hl; subst l. rewrite E2 in H. discriminate.
        -- rewrite (parse_raise_kind _ E2).
           destruct (Hskip ("Invalid version format for " ++ pkg_name p
                            ++ ": " ++ exn_str e2)) as [r_det [E [Fd Hw]]].
           exists r_det. rewrite E, app_nil_r.
           split; [reflexivity|]. split; [exact F|]. split; [exact Fd|].
           intros _. exact Hw.
      * rewrite (parse_raise_kind _ E1).
        destruct (Hskip ("Invalid version format for " ++ pkg_name p
                         ++ ": " ++ exn_str e1)) as [r_det [E [Fd Hw]]].
        exists r_det. rewrite E, app_nil_r.
        split; [reflexivity|]. split; [exact F|]. split; [exact Fd|].
        intros _. exact Hw.
    + destruct latest; [|discriminate].
      destruct (Hskip ("Could not retrieve latest version for " ++ pkg_name p
                       ++ ". Skipping update check.")) as [r_det [E [Fd Hw]]].
      exists r_det. rewrite E.
      assert (Hc : candidate p (Some "") = None).
      { unfold candidate.
        destruct (version.parse (pkg_version p)); [|reflexivity].
        pose proof parses_empty as He. unfold parses in He.
        destruct (version.parse ""); [discriminate|reflexivity]. }
      rewrite Hc, app_nil_r.
      split; [reflexivity|]. split; [exact F|]. split; [exact Fd|].
      intros _. exact Hw.
  - destruct (Hskip ("Could not retrieve latest version for " ++ pkg_name p
                     ++ ". Skipping update check.")) as [r_det [E [Fd Hw]]].
    exists r_det. rewrite E. simpl candidate. rewrite app_nil_r.
    split; [reflexivity|]. split; [exact F|]. split; [exact Fd|].
    intros _. exact Hw.
Qed.

Lemma candidate_outdated (p : package) (answer : option string) :
  candidate p answer
  = if outdated (p, answer) then Some (as_update (p, answer)) else None.
Proof.
  unfold candidate, outdated, as_update. simpl.
  destruct answer as [latest|]; [|reflexivity].
  destruct (version.parse (pkg_version p)); [|reflexivity].
  destruct (version.parse latest); [|reflexivity].
  destruct (version.lt _ _); reflexivity.
Qed.

Lemma expected_candidates_cons (p : package) (ps : list package)
      (answer : option string) (answers : list (option string)) :
  expected_candidates (p :: ps) (answer :: answers)
  = (match candidate p answer with Some u => [u] | None => [] end
     ++ expected_candidates ps answers)%list.
Proof.
  unfold expected_candidates. simpl combine. simpl filter.
  rewrite candidate_outdated.
  destruct (outdated (p, answer)); reflexivity.
Qed.

(** The loop of [check_for_updates]: it returns, starts one process
    per package, prints nothing and extends the list it was given by
    the expected candidates, in the order of the packages. *)
Lemma for_each_check_package (packages : list package) :
  forall acc w, exists recs,
    for_each packages detector acc w
    = (Ok (acc ++ expected_candidates
                    packages
                    (answers_from os_exec str_CalledProcessError
                                  (started w) packages))%list,
       mkWorld (started w + length packages) (root_level w)
               (handled w ++ recs)%list (printed w)).
Proof.
  induction packages as [|p ps IH]; intros acc w.
  - exists []. simpl. unfold ret, expected_candidates. simpl.
    rewrite !app_nil_r, Nat.add_0_r. destruct w; reflexivity.
  - simpl for_each. unfold bind.
    destruct (check_package_effect p acc w) as [r1 [r2 [E _]]].
    rewrite E. clear E.
    destruct (IH (acc ++ match candidate p (resolver_answer
                                              os_exec str_CalledProcessError
                                              (started w) (pkg_name p)) with
                         | Some u => [u]
                         | None => []
                         end)%list (advance w (r1 ++ r2))) as [r3 E].
    rewrite E. clear E.
    exists ((r1 ++ r2) ++ r3)%list.
    simpl answers_from. rewrite expected_candidates_cons.
    simpl. rewrite <- !app_assoc. repeat f_equal. lia.
Qed.

Lemma check_for_updates_spec (packages : list package) (w : world) :
  fst (check_for_updates os_exec str_CalledProcessError (Some packages) w)
  = Ok (expected_candidates
          packages
          (answers_from os_exec str_CalledProcessError (started w) packages)).
Proof.
  unfold check_for_updates.
  destruct (for_each_check_package packages [] w) as [recs E].
  rewrite E. reflexivity.
Qed.






End ProgramFacts.


(** C9. The Update Detector is a function of the packages and of the
    Resolver's answers: two runs on the same packages, on any two
    machines and from any two states, return the same list as soon as
    the Resolver answers alike for each package. *)
Theorem check_for_updates_deterministic
        (exec1 exec2 : nat -> list string -> result CompletedProcess)
        (str1 str2 : list string -> Z -> string)
        (packages : list package) (w1 w2 : world)
        (Hsame : answers_from exec1 str1 (started w1) packages
                 = answers_from exec2 str2 (started w2) packages) :
  fst (check_for_updates exec1 str1 (Some packages) w1)
  = fst (check_for_updates exec2 str2 (Some packages) w2).
Proof.
  rewrite !check_for_updates_spec. unfold expected_candidates.
  now rewrite Hsame.
Qed.

Lemma check_for_updates_deterministic_witness :
  let packages := [Sample.foo; Sample.bar; Sample.baz; Sample.qux] in
  let detect :=
    check_for_updates Sample.os_exec Sample.str_CalledProcessError
                      (Some packages) in
  fst (detect initial_world) = fst (detect (snd (detect initial_world))).
Proof.
  intros packages detect.
  apply check_for_updates_deterministic.
  vm_compute. reflexivity.
Defined.





(* ================================================================= *)
(** ** The report *)

Lemma print_lines (updates : list update) :
  forall w,
    for_each updates (fun u (_ : unit) => print (update_line u)) tt w
    = (Ok tt,
       mkWorld (started w) (root_level w) (handled w)
               (printed w ++ map update_line updates)).
Proof.
  induction updates as [|u us IH]; intros w; simpl.
  - unfold ret. rewrite app_nil_r. destruct w; reflexivity.
  - unfold bind, print at 1. rewrite IH. simpl.
    rewrite <- app_assoc. reflexivity.
Qed.

Lemma print_report_eq (updates : list update) (w : world) :
  print_report updates w
  = (Ok tt,
     mkWorld (started w) (root_level w) (handled w)
             (printed w ++ report_lines updates)).
Proof.
  destruct updates as [|u us].
  - reflexivity.
  - unfold print_report, bind, print at 1. rewrite print_lines.
    simpl. rewrite <- app_assoc. reflexivity.
Qed.

(** C4, as the specification states it, fails: for the one candidate
    [foo] from 1.2.0 to 1.3.0 the report is not the single line
    [foo: 1.2.0 -> 1.3.0]; that line is not printed at all. *)
Lemma report_is_not_arrow_lines :
  let u := mkUpdate "foo" "1.2.0" "1.3.0" in
  let out := printed (snd (print_report [u] initial_world)) in
  out <> map spec_line [u] /\ ~ In (spec_line u) out.
Proof.
  vm_compute. split.
  - discriminate.
  - intros [H|[H|[]]]; discriminate.
Qed.

(** C4, amended. For a sequence of updates that is not empty the report
    is the heading [Updates available:] followed by exactly one line
    per update, in order, of the form
    [- name: Installed version installed, latest version latest]; for
    the empty sequence it is the one line that all dependencies are up
    to date.  The lines go to standard output and nothing else
    changes. *)
Theorem print_report_lines (updates : list update) (w : world) :
  print_report updates w
  = (Ok tt,
     mkWorld (started w) (root_level w) (handled w)
             (printed w
              ++ match updates with
                 | [] => ["All dependencies are up to date."]
                 | _ :: _ =>
                     "Updates available:"
                       :: map (fun u =>
                                 "- " ++ name u ++ ": Installed version "
                                 ++ installed_version u ++ ", latest version "
                                 ++ latest_version u) updates
                 end)).
Proof. apply print_report_eq. Qed.

(* ================================================================= *)
(** ** The Lister, the scanner and [main] *)

Lemma bind_ok {A B} (m : M A) (k : A -> M B) (w w' : world) (a : A) :
  m w = (Ok a, w') -> bind m k w = k a w'.
Proof. intros E. unfold bind. now rewrite E. Qed.
Arguments bind_ok {A B m} k {w w' a} _.

Lemma enabled_above (w : world) :
  logging.isEnabledFor INFO w = true ->
  logging.isEnabledFor WARNING w = true /\ logging.isEnabledFor ERROR w = true.
Proof.
  unfold logging.isEnabledFor. destruct (root_level w); simpl; intros H;
    split; (reflexivity || discriminate).
Qed.

Section MainFacts.
Variable os_exec : nat -> list string -> result CompletedProcess.
Variable json_loads : string -> result (list package).
Variable str_CalledProcessError : list string -> Z -> string.

Local Abbreviation lister :=
  (get_installed_packages os_exec json_loads str_CalledProcessError).
Local Abbreviation scanner :=
  (check_security_vulnerabilities os_exec str_CalledProcessError).

(** The Lister always returns; what it returns depends on the world
    only through the process it starts; it prints nothing. *)
Lemma lister_run (project_path : string) (n : nat) :
  exists answer, forall rl h pr, exists recs,
    lister project_path (mkWorld n rl h pr)
    = (Ok answer, advance (mkWorld n rl h pr) recs)
    /\ Forall (fun r => funcName r = "get_installed_packages") recs.
Proof.
  unfold get_installed_packages. cbv zeta.
  set (command := if negb (project_path =? ".") then _ else _).
  match goal with
  | |- context [try_except ?b ?h] => set (body := b); set (handlers := h)
  end.
  assert (Hh : forall e rl h pr, exists recs,
             body (mkWorld n rl h pr) = (Raise e, mkWorld (S n) rl h pr) ->
             try_except body handlers (mkWorld n rl h pr)
             = (Ok None, advance (mkWorld n rl h pr) recs)
             /\ Forall (fun r => funcName r = "get_installed_packages") recs).
  { intros e rl h pr.
    assert (Hm : exists msg,
               handlers e
               = Some (bind (logging.error "get_installed_packages" msg)
                            (fun _ => ret None)))
      by (unfold handlers; destruct (exn_kind e); eexists; reflexivity).
    destruct Hm as [msg Hm].
    assert (Hl : log_only (bind (logging.error "get_installed_packages" msg)
                                (fun _ => ret (@None (list package))))
                          None "get_installed_packages")
      by (apply log_only_bind with (a := tt);
          [apply log_only_emit | apply log_only_ret]).
    destruct (Hl (mkWorld (S n) rl h pr)) as [recs [E1 F1]].
    exists recs. intros Hb. split; [|assumption].
    unfold try_except. rewrite Hb, Hm. exact E1. }
  destruct (os_exec n command) as [p|e] eqn:E.
  - destruct (returncode p =? 0)%Z eqn:Erc.
    + destruct (json_loads (stdout p)) as [l|e] eqn:Ej.
      * exists (Some l). intros rl h pr. exists [].
        split; [|constructor].
        unfold try_except, body, bind, subprocess_run, lift, ret.
        simpl started. rewrite E, Erc. simpl. rewrite Ej.
        unfold advance. simpl. now rewrite app_nil_r.
      * exists None. intros rl h pr.
        destruct (Hh e rl h pr) as [recs Hr]. exists recs.
        apply Hr.
        unfold body, bind, subprocess_run, lift. simpl started.
        rewrite E, Erc. simpl. rewrite Ej. reflexivity.
    + exists None. intros rl h pr.
      destruct (Hh (mkExn CalledProcessError
                          (str_CalledProcessError command (returncode p)))
                   rl h pr) as [recs Hr].
      exists recs. apply Hr.
      unfold body, bind, subprocess_run. simpl started.
      rewrite E, Erc. reflexivity.
  - exists None. intros rl h pr.
    destruct (Hh e rl h pr) as [recs Hr]. exists recs.
    apply Hr.
    unfold body, bind, subprocess_run. simpl started.
    rewrite E. reflexivity.
Qed.

Lemma lister_effect (args : Namespace) (rl : level) (h : list LogRecord)
      (pr : list string) :
  exists recs,
    lister (project_path args) (mkWorld 0 rl h pr)
    = (Ok (listed os_exec json_loads str_CalledProcessError args),
       advance (mkWorld 0 rl h pr) recs)
    /\ Forall (fun r => funcName r = "get_installed_packages") recs.
Proof.
  destruct (lister_run (project_path args) 0) as [answer H].
  unfold listed, initial_world.
  destruct (H INFO [] []) as [r0 [E0 _]].
  rewrite E0. simpl fst. apply H.
Qed.

(** The scanner: it always returns, starts one process, prints
    nothing, and its records give the verdict. *)
Lemma scanner_effect (project_path : string) (w : world) :
  logging.isEnabledFor INFO w = true ->
  let fn := "check_security_vulnerabilities" in
  exists verdict,
    scanner project_path w = (Ok tt, advance w verdict)
    /\ verdict <> []
    /\ Forall (fun r => funcName r = fn) verdict
    /\ match os_exec (started w) (safety_command project_path) with
       | Ok p =>
           if (returncode p =? 0)%Z then
             verdict
             = [mkLogRecord INFO fn "No known security vulnerabilities found."]
           else if (returncode p =? 1)%Z then
             verdict
             = [mkLogRecord WARNING fn "Security vulnerabilities found:";
                mkLogRecord WARNING fn (stdout p)]
           else
             verdict
             = [mkLogRecord ERROR fn
                  ("Safety check failed with return code "
                   ++ Py.str_of_int (returncode p) ++ ": " ++ stderr p)]
       | Raise e =>
           exists msg, verdict = [mkLogRecord ERROR fn msg]
       end.
Proof.
  intros Hinfo fn.
  destruct (enabled_above w Hinfo) as [Hwarn Herr].
  unfold check_security_vulnerabilities, safety_command.
  destruct (project_path =? ".") eqn:Ep; simpl negb; cbv iota;
    unfold try_except, bind, subprocess_run, logging.info, logging.warning,
      logging.error; simpl app;
    (destruct (os_exec (started w) _) as [p|e]; simpl andb; cbv iota;
     [ destruct (returncode p =? 0)%Z;
       [| destruct (returncode p =? 1)%Z ]
     | destruct (exn_kind e) ]);
    rewrite ?emit_eq; unfold logging.isEnabledFor in *; simpl root_level;
    rewrite ?Hinfo, ?Hwarn, ?Herr;
    unfold extend, advance; simpl; rewrite <- ?app_assoc;
    eexists; (split; [reflexivity|]);
    (split; [discriminate|]); (split; [repeat constructor|]);
    try reflexivity; try (eexists; reflexivity).
Qed.

(** [main] up to the report.  When the Lister returned packages, the
    Detector ran on them and the report of its result is all that is
    on standard output; otherwise nothing is printed, no lookup is
    made and the failure is logged. *)
Lemma main_update_phase (args : Namespace) :
  let l := listed os_exec json_loads str_CalledProcessError args in
  let rl := if verbose args then DEBUG else INFO in
  exists w_mid,
    main os_exec json_loads str_CalledProcessError args initial_world
    = security_phase os_exec str_CalledProcessError args w_mid
    /\ root_level w_mid = rl
    /\ match l with
       | Some (p :: ps) =>
           printed w_mid
           = report_lines
               (expected_candidates
                  (p :: ps)
                  (answers_from os_exec str_CalledProcessError 1 (p :: ps)))
       | _ =>
           exists r_list,
             w_mid = mkWorld 1 rl
                             (start_record :: r_list ++ [failed_record]) []
             /\ Forall (fun r => funcName r = "get_installed_packages") r_list
       end.
Proof.
  intros l rl. unfold main.
  assert (E0 : (if verbose args then logging.setLevel DEBUG else ret tt)
                 initial_world = (Ok tt, mkWorld 0 rl [] []))
    by (unfold rl; destruct (verbose args); reflexivity).
  rewrite (bind_ok _ E0). clear E0.
  assert (E1 : logging.info "main" "Starting dependency update check..."
                            (mkWorld 0 rl [] [])
               = (Ok tt, mkWorld 0 rl [start_record] []))
    by (unfold rl; destruct (verbose args); reflexivity).
  rewrite (bind_ok _ E1). clear E1.
  destruct (lister_effect args rl [start_record] []) as [r_list [E2 F2]].
  rewrite (bind_ok _ E2). clear E2. fold l.
  unfold advance. simpl.
  assert (Hfail :
            logging.error "main"
              "Failed to retrieve installed packages. Check logs for details."
              (mkWorld 1 rl (start_record :: r_list) [])
            = (Ok tt,
               mkWorld 1 rl (start_record :: r_list ++ [failed_record]) []))
    by (unfold logging.error; rewrite emit_eq; unfold rl;
        destruct (verbose args); reflexivity).
  destruct l as [[|p ps]|] eqn:El; simpl truthy_packages; cbv iota.
  - rewrite (bind_ok _ Hfail). eexists. split; [reflexivity|].
    split; [reflexivity|]. exists r_list. split; [reflexivity|exact F2].
  - destruct (for_each_check_package os_exec str_CalledProcessError (p :: ps) []
                (mkWorld 1 rl (start_record :: r_list) [])) as [recs E3].
    assert (E4 : bind (check_for_updates os_exec str_CalledProcessError
                                         (Some (p :: ps)))
                      (fun updates_available => print_report updates_available)
                      (mkWorld 1 rl (start_record :: r_list) [])
                 = (Ok tt,
                    mkWorld (1 + List.length (p :: ps)) rl
                            ((start_record :: r_list) ++ recs)
                            (report_lines
                               (expected_candidates
                                  (p :: ps)
                                  (answers_from os_exec str_CalledProcessError
                                                1 (p :: ps)))))).
    { unfold check_for_updates. rewrite (bind_ok _ E3).
      rewrite print_report_eq. reflexivity. }
    rewrite (bind_ok _ E4). eexists. split; [reflexivity|].
    split; reflexivity.
  - rewrite (bind_ok _ Hfail). eexists. split; [reflexivity|].
    split; [reflexivity|]. exists r_list. split; [reflexivity|exact F2].
Qed.

(** [main] from the security check on: it returns, prints nothing,
    and runs the scanner exactly when the flag is set. *)
Lemma security_phase_effect (args : Namespace) (w : world) :
  logging.isEnabledFor INFO w = true ->
  if check_security args then
    exists verdict,
      let w_scan := extend w [checking_record] in
      scanner (project_path args) w_scan = (Ok tt, advance w_scan verdict)
      /\ verdict <> []
      /\ Forall (fun r => funcName r = "check_security_vulnerabilities") verdict
      /\ security_phase os_exec str_CalledProcessError args w
         = (Ok tt, extend (advance w_scan verdict) [complete_record])
  else security_phase os_exec str_CalledProcessError args w
       = (Ok tt, extend w [complete_record]).
Proof.
  intros Hinfo. unfold security_phase.
  destruct (check_security args).
  - assert (Hinfo' : logging.isEnabledFor INFO (extend w [checking_record])
                     = true) by exact Hinfo.
    destruct (scanner_effect (project_path args) _ Hinfo')
      as [verdict [E [Hne [F _]]]].
    exists verdict. cbv zeta. split; [exact E|]. split; [exact Hne|].
    split; [exact F|].
    assert (Ea : logging.info "main" "Checking for security vulnerabilities..."
                              w
                 = (Ok tt, extend w [checking_record]))
      by (unfold logging.info; rewrite emit_eq, Hinfo; reflexivity).
    assert (Eb : bind (logging.info "main"
                         "Checking for security vulnerabilities...")
                      (fun _ => scanner (project_path args)) w
                 = (Ok tt, advance (extend w [checking_record]) verdict))
      by (rewrite (bind_ok _ Ea); exact E).
    rewrite (bind_ok _ Eb).
    unfold logging.info. rewrite emit_eq.
    assert (Hi2 : logging.isEnabledFor
                    INFO (advance (extend w [checking_record]) verdict) = true)
      by exact Hinfo.
    rewrite Hi2. reflexivity.
  - unfold bind, ret, logging.info. rewrite emit_eq, Hinfo. reflexivity.
Qed.

End MainFacts.

Section RunFacts.
Variable os_exec : nat -> list string -> result CompletedProcess.
Variable json_loads : string -> result (list package).
Variable str_CalledProcessError : list string -> Z -> string.

Local Abbreviation script :=
  (run_script os_exec json_loads str_CalledProcessError).

(** The whole run, put together: [main] returns; standard output
    holds the report when the Lister returned packages and nothing
    otherwise; the records are those of the update phase followed by
    those of the security phase. *)
Lemma run_script_effect (args : Namespace) :
  exists w_mid tail,
    script args
    = (Ok tt,
       mkWorld (started w_mid + (if check_security args then 1 else 0))
               (root_level w_mid) (handled w_mid ++ tail) (printed w_mid))
    /\ Forall (fun r => funcName r = "main"
                        \/ funcName r = "check_security_vulnerabilities") tail
    /\ (check_security args = true ->
        exists verdict,
          let w_scan := extend w_mid [checking_record] in
          check_security_vulnerabilities os_exec str_CalledProcessError
                                         (project_path args) w_scan
          = (Ok tt, advance w_scan verdict)
          /\ verdict <> []
          /\ tail = (checking_record :: verdict ++ [complete_record])%list)
    /\ match listed os_exec json_loads str_CalledProcessError args with
       | Some (p :: ps) =>
           printed w_mid
           = report_lines
               (expected_candidates
                  (p :: ps)
                  (answers_from os_exec str_CalledProcessError 1 (p :: ps)))
       | _ =>
           exists r_list,
             w_mid = mkWorld 1 (if verbose args then DEBUG else INFO)
                             (start_record :: r_list ++ [failed_record]) []
             /\ Forall (fun r => funcName r = "get_installed_packages") r_list
       end.
Proof.
  destruct (main_update_phase os_exec json_loads str_CalledProcessError args)
    as [w_mid [E [Hrl Hmid]]].
  assert (Hinfo : logging.isEnabledFor INFO w_mid = true)
    by (unfold logging.isEnabledFor; rewrite Hrl;
        destruct (verbose args); reflexivity).
  pose proof (security_phase_effect os_exec str_CalledProcessError
                                    args w_mid Hinfo) as Hsec.
  exists w_mid. unfold run_script. rewrite E. clear E.
  destruct (check_security args).
  - destruct Hsec as [verdict [Es [Hne [F Et]]]].
    exists (checking_record :: verdict ++ [complete_record])%list.
    split; [|split; [|split]].
    + rewrite Et. unfold extend, advance. simpl.
      rewrite <- !app_assoc. repeat f_equal. lia.
    + constructor; [left; reflexivity|].
      apply Forall_app. split.
      * eapply Forall_impl; [|exact F]. intros r Hr. right. exact Hr.
      * repeat constructor.
    + intros _. exists verdict. cbv zeta.
      split; [exact Es|]. split; [exact Hne|reflexivity].
    + exact Hmid.
  - exists [complete_record]. split; [|split; [|split]].
    + rewrite Hsec. unfold extend. rewrite Nat.add_0_r. reflexivity.
    + repeat constructor.
    + discriminate.
    + exact Hmid.
Qed.


End RunFacts.





(** C10. When the Package Lister returns an empty list, [main] takes
    the branch of the failed listing: it logs that the installed
    packages could not be retrieved, starts no lookup (the listing and,
    if asked for, the scanner are the only processes; neither the
    Detector nor the Resolver logs anything) and prints nothing, neither
    a line for an update nor the message that all is up to date.  That
    message is printed only in a run where the Lister returned at least
    one package. *)
Theorem empty_listing_takes_failure_branch
        (os_exec : nat -> list string -> result CompletedProcess)
        (json_loads : string -> result (list package))
        (str_CalledProcessError : list string -> Z -> string)
        (args : Namespace) :
  let r := run_script os_exec json_loads str_CalledProcessError args in
  let l := listed os_exec json_loads str_CalledProcessError args in
  (l = Some [] ->
   printed (snd r) = []
   /\ In failed_record (handled (snd r))
   /\ started (snd r) = (if check_security args then 2 else 1)
   /\ logged_by "check_for_updates" (handled (snd r)) = []
   /\ logged_by "get_latest_package_version" (handled (snd r)) = [])
  /\ (In "All dependencies are up to date." (printed (snd r)) ->
      exists p ps, l = Some (p :: ps)).
Proof.
  intros r l.
  destruct (run_script_effect os_exec json_loads str_CalledProcessError args)
    as [w_mid [tail [E [Ft [_ Hmid]]]]].
  fold r in E. fold l in Hmid. rewrite E. simpl snd. simpl printed.
  simpl handled. simpl started.
  assert (Htail : forall fn,
             fn <> "main" -> fn <> "check_security_vulnerabilities" ->
             logged_by fn tail = []).
  { intros fn H1 H2. clear - Ft H1 H2.
    induction Ft as [|x tl [Hx|Hx] _ IH]; simpl; [reflexivity| |];
      rewrite Hx;
      match goal with
      | |- context [String.eqb ?a fn] =>
          destruct (String.eqb_spec a fn) as [Heq|_];
          [exfalso; auto | exact IH]
      end. }
  split.
  - intros Hl. rewrite Hl in Hmid. destruct Hmid as [r_list [-> Fl]].
    simpl. split; [reflexivity|]. split; [|split; [|split]].
    + right. apply in_or_app. left. apply in_or_app. right. left. reflexivity.
    + destruct (check_security args); reflexivity.
    + change (logged_by "check_for_updates"
                        ((start_record :: r_list ++ [failed_record]) ++ tail) = []).
      rewrite logged_by_app, Htail by discriminate.
      change (start_record :: r_list ++ [failed_record])%list
        with ([start_record] ++ r_list ++ [failed_record])%list.
      rewrite !logged_by_app.
      rewrite (logged_by_other (fn := "check_for_updates")
                               (fn' := "get_installed_packages")
                               (recs := r_list))
        by (discriminate || exact Fl).
      reflexivity.
    + change (logged_by "get_latest_package_version"
                        ((start_record :: r_list ++ [failed_record]) ++ tail) = []).
      rewrite logged_by_app, Htail by discriminate.
      change (start_record :: r_list ++ [failed_record])%list
        with ([start_record] ++ r_list ++ [failed_record])%list.
      rewrite !logged_by_app.
      rewrite (logged_by_other (fn := "get_latest_package_version")
                               (fn' := "get_installed_packages")
                               (recs := r_list))
        by (discriminate || exact Fl).
      reflexivity.
  - intros Hin. destruct l as [[|p ps]|].
    + destruct Hmid as [r_list [-> _]]. destruct Hin.
    + eauto.
    + destruct Hmid as [r_list [-> _]]. destruct Hin.
Qed.

Lemma empty_listing_takes_failure_branch_witness :
  let r := run_script Sample.os_exec Sample.empty_loads
                      Sample.str_CalledProcessError Sample.args in
  printed (snd r) = [] /\ In failed_record (handled (snd r)).
Proof.
  destruct (proj1 (@empty_listing_takes_failure_branch
                     Sample.os_exec Sample.empty_loads
                     Sample.str_CalledProcessError Sample.args))
    as [Hp [Hf _]].
  - vm_compute. reflexivity.
  - split; assumption.
Defined.

(* ================================================================= *)
(** ** Searching and cutting strings *)

Section Strings.

Lemma prefix_occurs (m : string) :
  forall s, prefix m s = true <-> exists after, s = m ++ after.
Proof.
  induction m as [|a m IH]; intros s.
  - split; [intros _; exists s; reflexivity | intros _; destruct s; reflexivity].
  - destruct s as [|b s]; simpl.
    + split; [discriminate | intros [t H]; discriminate].
    + destruct (ascii_dec a b) as [->|Hne].
      * rewrite IH. split; intros [t H]; exists t.
        -- now rewrite H.
        -- now inversion H.
      * split; [discriminate|]. intros [t H]. inversion H. subst.
        exfalso. apply Hne. reflexivity.
Qed.

Lemma occurs_at_0 (m s : string) :
  occurs_at m s 0 <-> exists after, s = m ++ after.
Proof.
  split.
  - intros [pre [post [H Hl]]]. destruct pre; [|discriminate].
    exists post. exact H.
  - intros [post H]. exists "", post. split; [exact H|reflexivity].
Qed.

Lemma occurs_at_S (m s : string) (b : ascii) (j : nat) :
  occurs_at m (String b s) (S j) <-> occurs_at m s j.
Proof.
  split.
  - intros [pre [post [H Hl]]]. destruct pre as [|a pre]; [discriminate|].
    simpl in H, Hl. inversion H. exists pre, post. split; [reflexivity|lia].
  - intros [pre [post [H Hl]]]. exists (String b pre), post.
    simpl. split; [now rewrite H | now rewrite Hl].
Qed.

Lemma occurs_at_empty (m : string) (j : nat) :
  occurs_at m "" j -> m = "".
Proof.
  intros [pre [post [H _]]]. destruct pre; [|discriminate].
  destruct m; [reflexivity|discriminate].
Qed.

(** What [index] finds: the least occurrence at or after the start. *)
Lemma index_spec (m : string) (Hm : m <> "") :
  forall s n,
    match index n m s with
    | Some i => n <= i /\ occurs_at m s i
                /\ (forall j, n <= j -> occurs_at m s j -> i <= j)
    | None => forall j, n <= j -> ~ occurs_at m s j
    end.
Proof.
  induction s as [|b s IH]; intros n.
  - assert (Hn : index n m "" = None)
      by (destruct n; simpl; [destruct m; [contradiction|] |]; reflexivity).
    rewrite Hn. intros j _ H. apply occurs_at_empty in H. contradiction.
  - destruct n as [|n].
    + change (index 0 m (String b s))
        with (if prefix m (String b s) then Some 0
              else match index 0 m s with
                   | Some n => Some (S n)
                   | None => None
                   end).
      destruct (prefix m (String b s)) eqn:P.
      * split; [lia|]. split; [|intros; lia].
        apply occurs_at_0, prefix_occurs. exact P.
      * assert (H0 : ~ occurs_at m (String b s) 0).
        { intros H. apply occurs_at_0, prefix_occurs in H. congruence. }
        specialize (IH 0). destruct (index 0 m s) as [i|].
        -- destruct IH as [_ [Ho Hmin]]. split; [lia|]. split.
           ++ apply occurs_at_S. exact Ho.
           ++ intros [|j] _ Hj; [contradiction|].
              apply occurs_at_S in Hj. apply Hmin in Hj; lia.
        -- intros [|j] _ Hj; [contradiction|].
           apply occurs_at_S in Hj. apply (IH j); [lia|exact Hj].
    + change (index (S n) m (String b s))
        with (match index n m s with
              | Some n => Some (S n)
              | None => None
              end).
      specialize (IH n). destruct (index n m s) as [i|].
      * destruct IH as [Hle [Ho Hmin]]. split; [lia|]. split.
        -- apply occurs_at_S. exact Ho.
        -- intros [|j] Hj Hoj; [lia|].
           apply occurs_at_S in Hoj. apply Hmin in Hoj; lia.
      * intros [|j] Hj Hoj; [lia|].
        apply occurs_at_S in Hoj. apply (IH j); [lia|exact Hoj].
Qed.

Lemma length_append (a b : string) :
  String.length (a ++ b) = String.length a + String.length b.
Proof. induction a; simpl; [reflexivity | now rewrite IHa]. Qed.

Lemma append_assoc (a b c : string) : (a ++ b) ++ c = a ++ b ++ c.
Proof. induction a; simpl; [reflexivity | now rewrite IHa]. Qed.

(** The character at an occurrence of a one-character string. *)
Lemma occurs_at_get (c : ascii) (s : string) (i : nat) :
  occurs_at (String c "") s i -> get i s = Some c.
Proof.
  intros [pre [post [-> <-]]].
  induction pre as [|a pre IH]; simpl; [reflexivity | exact IH].
Qed.

Lemma get_has_char (s : string) :
  forall i c, get i s = Some c -> has_char c s.
Proof.
  unfold has_char.
  induction s as [|a s IH]; intros i c H; simpl in *; [discriminate|].
  destruct i as [|i].
  - inversion H. left; reflexivity.
  - right. eapply IH. exact H.
Qed.

Lemma get_append_right (a b : string) (i : nat) :
  String.length a <= i -> get i (a ++ b) = get (i - String.length a) b.
Proof.
  revert i. induction a as [|x a IH]; intros i Hi; simpl.
  - now rewrite Nat.sub_0_r.
  - destruct i as [|i]; simpl in Hi; [lia|]. simpl. apply IH. lia.
Qed.

Lemma get_append_left (a b : string) (i : nat) :
  i < String.length a -> get i (a ++ b) = get i a.
Proof.
  revert i. induction a as [|x a IH]; intros i Hi; simpl in *; [lia|].
  destruct i as [|i]; [reflexivity|]. apply IH. lia.
Qed.

(** [s[len(a) : len(a) + len(b)]] when [s = a + b + t]. *)
Lemma substring_middle (a b t : string) :
  substring (String.length a) (String.length b) (a ++ b ++ t) = b.
Proof.
  induction a as [|x a IH]; simpl.
  - induction b as [|y b IHb]; simpl.
    + destruct t; reflexivity.
    + now rewrite IHb.
  - exact IH.
Qed.

Lemma split_on_nonempty (is_sep : ascii -> bool) (s : string) :
  Py.split_on is_sep s <> [].
Proof.
  destruct s as [|a s]; simpl; [discriminate|].
  destruct (is_sep a); [discriminate|].
  destruct (Py.split_on is_sep s); discriminate.
Qed.

(** A string without the separator is the one entry of its split. *)
Lemma split_no_sep (c : ascii) (s : string) :
  ~ has_char c s -> Py.split s c = [s].
Proof.
  unfold Py.split, has_char.
  induction s as [|a s IH]; intros H; simpl in *; [reflexivity|].
  destruct (Ascii.eqb_spec c a) as [->|Hne].
  - exfalso. apply H. left; reflexivity.
  - rewrite IH; [reflexivity|]. intros Hin. apply H. right; exact Hin.
Qed.

(** After the last separator comes the last entry of the split. *)
Lemma split_last_entry (c : ascii) (last : string) :
  ~ has_char c last ->
  forall f, exists l,
    l <> [] /\ Py.split (f ++ String c "" ++ last) c = (l ++ [last])%list.
Proof.
  intros Hlast. unfold Py.split.
  induction f as [|a f [l [Hl IH]]]; simpl.
  - rewrite Ascii.eqb_refl. exists [""]. split; [discriminate|].
    fold (Py.split last c). rewrite (@split_no_sep c last Hlast). reflexivity.
  - simpl in IH. rewrite IH.
    destruct (Ascii.eqb c a).
    + exists ("" :: l). split; [discriminate|reflexivity].
    + destruct l as [|x l]; [contradiction|].
      exists (String a x :: l). split; [discriminate|reflexivity].
Qed.

Lemma last_item_snoc {A} (l : list A) (x : A) :
  Py.last_item (l ++ [x]) = Some x.
Proof.
  induction l as [|y l IH]; simpl; [reflexivity|].
  rewrite IH. destruct (l ++ [x])%list eqn:E; [|reflexivity].
  destruct l; discriminate.
Qed.

(** The last entry of a comma-separated list. *)
Lemma last_entry (s front last : string) :
  s = front ++ last ->
  front = "" \/ (exists f, front = f ++ ",") ->
  ~ has_char "," last ->
  Py.last_item (map Py.strip (Py.split s ",")) = Some (Py.strip last).
Proof.
  intros -> [->|[f ->]] Hlast.
  - simpl. rewrite (@split_no_sep _ last Hlast). reflexivity.
  - rewrite append_assoc.
    destruct (@split_last_entry _ last Hlast f) as [l [_ E]].
    rewrite E, map_app. simpl. apply last_item_snoc.
Qed.

End Strings.

(* ================================================================= *)
(** ** The Resolver on the error output *)

Section ResolverOutput.
Variable os_exec : nat -> list string -> result CompletedProcess.
Variable str_CalledProcessError : list string -> Z -> string.

Lemma find_of_nat (s sub : string) (n : nat) :
  Py.find s sub (Z.of_nat n)
  = match index n sub s with
    | Some i => Z.of_nat i
    | None => (-1)%Z
    end.
Proof. unfold Py.find. now rewrite Nat2Z.id. Qed.

Lemma marker_nonempty : marker <> "".
Proof. discriminate. Qed.

Lemma paren_nonempty : ")" <> "".
Proof. discriminate. Qed.

(** The index of the first occurrence. *)
Lemma index_first (m s before after : string) :
  m <> "" ->
  s = before ++ m ++ after ->
  (forall i, occurs_at m s i -> String.length before <= i) ->
  index 0 m s = Some (String.length before).
Proof.
  intros Hm Hs Hfirst.
  assert (Ho : occurs_at m s (String.length before))
    by (exists before, after; split; [exact Hs|reflexivity]).
  pose proof (index_spec Hm s 0) as H.
  destruct (index 0 m s) as [i|].
  - destruct H as [_ [Hi Hmin]]. f_equal.
    apply Nat.le_antisymm; [apply Hmin; [lia|exact Ho] | apply Hfirst; exact Hi].
  - exfalso. apply (H (String.length before)); [lia|exact Ho].
Qed.

(** No closing parenthesis after the start: the search fails. *)
Lemma index_paren_none (a rest : string) :
  ~ has_char ")" rest ->
  index (String.length a) ")" (a ++ rest) = None.
Proof.
  intros Hno.
  pose proof (index_spec paren_nonempty (a ++ rest) (String.length a)) as H.
  destruct (index (String.length a) ")" (a ++ rest)) as [i|]; [|reflexivity].
  destruct H as [Hle [Hi _]]. exfalso. apply Hno.
  apply occurs_at_get in Hi. rewrite get_append_right in Hi by exact Hle.
  eapply get_has_char. exact Hi.
Qed.

(** The first closing parenthesis after the start. *)
Lemma index_paren_some (a body rest : string) :
  ~ has_char ")" body ->
  index (String.length a) ")" (a ++ body ++ ")" ++ rest)
  = Some (String.length a + String.length body).
Proof.
  intros Hno.
  assert (Ho : occurs_at ")" (a ++ body ++ ")" ++ rest)
                         (String.length a + String.length body)).
  { exists (a ++ body), rest. split.
    - now rewrite append_assoc.
    - apply length_append. }
  pose proof (index_spec paren_nonempty (a ++ body ++ ")" ++ rest)
                         (String.length a)) as H.
  destruct (index (String.length a) ")" (a ++ body ++ ")" ++ rest)) as [i|].
  - destruct H as [Hle [Hi Hmin]]. f_equal.
    apply Nat.le_antisymm; [apply Hmin; [lia|exact Ho]|].
    destruct (Nat.lt_ge_cases i (String.length a + String.length body))
      as [Hlt|Hge]; [|exact Hge].
    exfalso. apply Hno.
    apply occurs_at_get in Hi. rewrite get_append_right in Hi by exact Hle.
    rewrite get_append_left in Hi by lia.
    eapply get_has_char. exact Hi.
  - exfalso. apply (H (String.length a + String.length body)); [lia|exact Ho].
Qed.

(** When the process completes, the Resolver's answer is read off its
    error output. *)
Lemma resolver_on_output (package_name : string) (w : world)
      (p : CompletedProcess) :
  os_exec (started w)
          ["pip"; "install"; package_name ++ "==NonExistentVersion"] = Ok p ->
  get_latest_package_version os_exec str_CalledProcessError package_name w
  = latest_from_output package_name (stderr p)
      (mkWorld (S (started w)) (root_level w) (handled w) (printed w)).
Proof.
  intros E. unfold get_latest_package_version, try_except, bind, subprocess_run.
  rewrite E. simpl.
  destruct (latest_from_output_log_only package_name (stderr p)) as [a Hl].
  destruct (Hl (mkWorld (S (started w)) (root_level w) (handled w) (printed w)))
    as [recs [E1 _]].
  rewrite E1. reflexivity.
Qed.

Lemma undetermined_eq (package_name : string) (w : world) :
  logging.isEnabledFor WARNING w = true ->
  bind (logging.warning "get_latest_package_version"
          ("Could not determine the latest version for " ++ package_name))
       (fun _ => ret (@None string))
       (mkWorld (S (started w)) (root_level w) (handled w) (printed w))
  = (Ok None, advance w [undetermined_record package_name]).
Proof.
  intros Hen. unfold bind, logging.warning. rewrite emit_eq.
  unfold logging.isEnabledFor in *. simpl root_level. rewrite Hen.
  reflexivity.
Qed.

Lemma latest_marker_absent (package_name output : string) (w : world) :
  logging.isEnabledFor WARNING w = true ->
  ~ occurs marker output ->
  latest_from_output package_name output
    (mkWorld (S (started w)) (root_level w) (handled w) (printed w))
  = (Ok None, advance w [undetermined_record package_name]).
Proof.
  intros Hen Habs. unfold latest_from_output. cbv zeta.
  change 0%Z with (Z.of_nat 0). rewrite find_of_nat.
  pose proof (index_spec marker_nonempty output 0) as H.
  fold marker.
  destruct (index 0 marker output) as [i|].
  - exfalso. apply Habs. exists i. apply H.
  - simpl Z.eqb. cbv iota. apply undetermined_eq. exact Hen.
Qed.

Lemma start_index_eq (before : string) :
  (Z.of_nat (String.length before) + Py.len marker)%Z
  = Z.of_nat (String.length (before ++ marker)).
Proof. rewrite length_append. unfold Py.len, marker. lia. Qed.

Lemma latest_unclosed (package_name output before rest : string) (w : world) :
  logging.isEnabledFor WARNING w = true ->
  output = before ++ marker ++ rest ->
  (forall i, occurs_at marker output i -> String.length before <= i) ->
  ~ has_char ")" rest ->
  latest_from_output package_name output
    (mkWorld (S (started w)) (root_level w) (handled w) (printed w))
  = (Ok None, advance w [undetermined_record package_name]).
Proof.
  intros Hen Hs Hfirst Hno. unfold latest_from_output. cbv zeta.
  change 0%Z with (Z.of_nat 0). rewrite find_of_nat. fold marker.
  rewrite (@index_first marker output before _ marker_nonempty Hs Hfirst).
  assert (Hn : (Z.of_nat (String.length before) =? -1)%Z = false)
    by (apply Z.eqb_neq; lia).
  rewrite Hn, start_index_eq, find_of_nat.
  rewrite Hs, <- (append_assoc before marker rest).
  rewrite (@index_paren_none (before ++ marker) rest Hno).
  simpl Z.eqb. cbv iota. apply undetermined_eq. exact Hen.
Qed.

Lemma latest_found (package_name output before body rest front last : string)
      (w : world) :
  output = before ++ marker ++ body ++ ")" ++ rest ->
  (forall i, occurs_at marker output i -> String.length before <= i) ->
  ~ has_char ")" body ->
  Py.strip body = front ++ last ->
  front = "" \/ (exists f, front = f ++ ",") ->
  ~ has_char "," last ->
  latest_from_output package_name output
    (mkWorld (S (started w)) (root_level w) (handled w) (printed w))
  = (Ok (Some (Py.strip last)), advance w []).
Proof.
  intros Hs Hfirst Hno Hbody Hfront Hlast. unfold latest_from_output.
  cbv zeta. change 0%Z with (Z.of_nat 0). rewrite find_of_nat. fold marker.
  rewrite (@index_first marker output before _ marker_nonempty Hs Hfirst).
  assert (Hn : (Z.of_nat (String.length before) =? -1)%Z = false)
    by (apply Z.eqb_neq; lia).
  rewrite Hn, start_index_eq, find_of_nat.
  assert (Hs' : output = (before ++ marker) ++ body ++ ")" ++ rest)
    by (rewrite Hs; symmetry; apply append_assoc).
  rewrite Hs'.
  rewrite (@index_paren_some (before ++ marker) body rest Hno).
  assert (Hn2 : (Z.of_nat (String.length (before ++ marker)
                           + String.length body) =? -1)%Z = false)
    by (apply Z.eqb_neq; lia).
  rewrite Hn2.
  assert (Hslice : Py.slice ((before ++ marker) ++ body ++ ")" ++ rest)
                     (Z.of_nat (String.length (before ++ marker)))
                     (Z.of_nat (String.length (before ++ marker)
                                + String.length body)) = body).
  { unfold Py.slice. rewrite !Nat2Z.id.
    replace (String.length (before ++ marker) + String.length body
             - String.length (before ++ marker))
      with (String.length body) by lia.
    apply substring_middle. }
  rewrite Hslice.
  rewrite (@last_entry _ front last Hbody Hfront Hlast).
  unfold ret, advance. simpl. now rewrite app_nil_r.
Qed.

End ResolverOutput.

(** C7. On the error output of a package-manager process that
    completed: when the marker [(from versions:] does not occur, or
    occurs with no closing parenthesis after it, the lookup returns
    [None] and logs one warning, and raises nothing; when the marker
    occurs and a closing parenthesis follows, the lookup returns the
    last entry of the comma-separated list between the first marker and
    the first parenthesis after it, white space stripped, and logs
    nothing. *)
Theorem resolver_reads_versions_list
        (os_exec : nat -> list string -> result CompletedProcess)
        (str_CalledProcessError : list string -> Z -> string)
        (package_name : string) (w : world) (p : CompletedProcess)
        (Hexec : os_exec (started w)
                         ["pip"; "install";
                          package_name ++ "==NonExistentVersion"] = Ok p)
        (Hen : logging.isEnabledFor WARNING w = true) :
  let output := stderr p in
  let lookup :=
    get_latest_package_version os_exec str_CalledProcessError package_name w in
  let warned :=
    advance w [mkLogRecord WARNING "get_latest_package_version"
                 ("Could not determine the latest version for "
                  ++ package_name)] in
  (~ occurs marker output -> lookup = (Ok None, warned))
  /\ (forall before rest,
         output = before ++ marker ++ rest ->
         (forall i, occurs_at marker output i -> String.length before <= i) ->
         ~ has_char ")" rest ->
         lookup = (Ok None, warned))
  /\ (forall before body rest front last,
         output = before ++ marker ++ body ++ ")" ++ rest ->
         (forall i, occurs_at marker output i -> String.length before <= i) ->
         ~ has_char ")" body ->
         Py.strip body = front ++ last ->
         front = "" \/ (exists f, front = f ++ ",") ->
         ~ has_char "," last ->
         lookup = (Ok (Some (Py.strip last)), advance w [])).
Proof.
  intros output lookup warned. unfold lookup.
  rewrite (resolver_on_output os_exec str_CalledProcessError package_name w Hexec).
  fold output. split; [|split].
  - intros Habs. now apply latest_marker_absent.
  - intros before rest Hs Hfirst Hno. now apply latest_unclosed with before rest.
  - intros before body rest front last Hs Hfirst Hno Hb Hf Hl.
    now apply latest_found with before body rest front.
Qed.

Lemma resolver_reads_versions_list_witness :
  get_latest_package_version Sample.os_exec Sample.str_CalledProcessError
                             "foo" initial_world
  = (Ok (Some "1.3.0"), advance initial_world []).
Proof.
  pose proof (@resolver_reads_versions_list
                Sample.os_exec Sample.str_CalledProcessError "foo" initial_world
                (mkCompletedProcess 1 "" (Sample.pip_error "foo" "1.2.0, 1.3.0"))
                eq_refl eq_refl) as [_ [_ H]].
  apply (H "ERROR: Could not find a version that satisfies the requirement foo==NonExistentVersion "
           " 1.2.0, 1.3.0" "" "1.2.0," " 1.3.0").
  - reflexivity.
  - intros i Hi.
    pose proof (@index_spec marker marker_nonempty
                  (Sample.pip_error "foo" "1.2.0, 1.3.0") 0) as Hspec.
    vm_compute index in Hspec. destruct Hspec as [_ [_ Hmin]].
    apply Hmin; [lia | exact Hi].
  - unfold has_char. simpl.
    intros Hc; repeat (destruct Hc as [Hc|Hc]; [discriminate|]); exact Hc.
  - reflexivity.
  - right. exists "1.2.0". reflexivity.
  - unfold has_char. simpl.
    intros Hc; repeat (destruct Hc as [Hc|Hc]; [discriminate|]); exact Hc.
Defined.


(* ================================================================= *)
(** * The rest of the program *)

(* ================================================================= *)
(** ** The Lister *)

(** X1. [get_installed_packages] starts one process, the listing for
    the project path, prints nothing and never raises.  It returns the
    decoded packages, and logs nothing, exactly when the process exits
    with status 0 and its standard output decodes; on any other exit
    status the output is not decoded at all; in every failing case it
    returns [None] and logs exactly one error. *)
Theorem lister_outcome
        (os_exec : nat -> list string -> result CompletedProcess)
        (json_loads : string -> result (list package))
        (str_CalledProcessError : list string -> Z -> string)
        (path : string) (w : world)
        (Hen : logging.isEnabledFor ERROR w = true) :
  let fn := "get_installed_packages" in
  let lister :=
    get_installed_packages os_exec json_loads str_CalledProcessError path w in
  match os_exec (started w) (pip_list_command path) with
  | Ok p =>
      if (returncode p =? 0)%Z then
        match json_loads (stdout p) with
        | Ok l => lister = (Ok (Some l), advance w [])
        | Raise e =>
            exists msg,
              lister = (Ok None, advance w [mkLogRecord ERROR fn msg])
              /\ (exn_kind e = JSONDecodeError ->
                  msg = "Error decoding JSON output from pip: " ++ exn_str e)
        end
      else
        lister
        = (Ok None,
           advance w [mkLogRecord ERROR fn
                        ("Error listing installed packages: "
                         ++ str_CalledProcessError (pip_list_command path)
                                                   (returncode p))])
  | Raise e =>
      exists msg,
        lister = (Ok None, advance w [mkLogRecord ERROR fn msg])
        /\ (exn_kind e = FileNotFoundError ->
            msg = "pip not found. Ensure pip is installed and in your PATH.")
  end.
Proof.
  intros fn lister. unfold lister, get_installed_packages, pip_list_command.
  unfold logging.isEnabledFor in Hen.
  destruct (String.eqb path "."); simpl negb; cbv iota zeta;
    unfold try_except, bind, subprocess_run, lift, ret, logging.error; simpl app;
    (destruct (os_exec (started w) _) as [p|e]; simpl andb; cbv iota;
     [ destruct (returncode p =? 0)%Z; simpl negb; cbv iota;
       [ destruct (json_loads (stdout p)) as [l|e];
         [ unfold advance; rewrite app_nil_r; reflexivity
         | destruct (exn_kind e) eqn:Ek ]
       | ]
     | destruct (exn_kind e) eqn:Ek ]);
    simpl exn_kind; simpl exn_str; cbv beta iota;
    rewrite ?emit_eq; unfold logging.isEnabledFor; simpl root_level;
    rewrite ?Hen;
    try reflexivity;
    (eexists; split; [reflexivity | intros H; try discriminate H; reflexivity]).
Qed.

Lemma lister_outcome_witness :
  get_installed_packages Sample.os_exec Sample.json_loads
                         Sample.str_CalledProcessError "." initial_world
  = (Ok (Some [Sample.foo; Sample.bar; Sample.baz; Sample.qux]),
     advance initial_world []).
Proof.
  exact (@lister_outcome Sample.os_exec Sample.json_loads
                         Sample.str_CalledProcessError "." initial_world
                         eq_refl).
Defined.

(* ================================================================= *)
(** ** The Resolver *)

(** The lookup when its process cannot be run. *)
Lemma resolver_raises_effect
        (os_exec : nat -> list string -> result CompletedProcess)
        (str_CalledProcessError : list string -> Z -> string)
        (package_name : string) (w : world) (e : exn)
        (Hexec : os_exec (started w) (pip_install_command package_name)
                 = Raise e)
        (Hen : logging.isEnabledFor ERROR w = true) :
  let fn := "get_latest_package_version" in
  exists msg,
    get_latest_package_version os_exec str_CalledProcessError package_name w
    = (Ok None, advance w [mkLogRecord ERROR fn msg])
    /\ match exn_kind e with
       | FileNotFoundError =>
           msg = "pip not found. Ensure pip is installed and in your PATH."
       | CalledProcessError =>
           msg = "Error getting latest version for " ++ package_name
                 ++ ": " ++ exn_str e
       | _ => msg = "An unexpected error occurred: " ++ exn_str e
       end.
Proof.
  intros fn. unfold pip_install_command in Hexec.
  unfold get_latest_package_version, try_except, bind at 1, subprocess_run.
  rewrite Hexec. unfold logging.isEnabledFor in Hen.
  destruct (exn_kind e); cbv beta iota;
    unfold bind, logging.error, ret; rewrite emit_eq;
    unfold logging.isEnabledFor; simpl root_level; rewrite Hen;
    eexists; split; reflexivity.
Qed.

(** X2. When the lookup process cannot be run, the exception stays in
    [get_latest_package_version]: the lookup returns [None], prints
    nothing and logs exactly one error, whose text tells a missing
    [pip] from the other failures. *)
Theorem resolver_process_raises
        (os_exec : nat -> list string -> result CompletedProcess)
        (str_CalledProcessError : list string -> Z -> string)
        (package_name : string) (w : world) (e : exn)
        (Hexec : os_exec (started w) (pip_install_command package_name)
                 = Raise e)
        (Hen : logging.isEnabledFor ERROR w = true) :
  let fn := "get_latest_package_version" in
  exists msg,
    get_latest_package_version os_exec str_CalledProcessError package_name w
    = (Ok None, advance w [mkLogRecord ERROR fn msg])
    /\ match exn_kind e with
       | FileNotFoundError =>
           msg = "pip not found. Ensure pip is installed and in your PATH."
       | CalledProcessError =>
           msg = "Error getting latest version for " ++ package_name
                 ++ ": " ++ exn_str e
       | _ => msg = "An unexpected error occurred: " ++ exn_str e
       end.
Proof.
  exact (@resolver_raises_effect os_exec str_CalledProcessError
                                 package_name w e Hexec Hen).
Qed.

Lemma resolver_process_raises_witness :
  get_latest_package_version Sample.bare_exec Sample.str_CalledProcessError
                             "foo" initial_world
  = (Ok None,
     advance initial_world
             [mkLogRecord ERROR "get_latest_package_version"
                "pip not found. Ensure pip is installed and in your PATH."]).
Proof.
  destruct (@resolver_process_raises
              Sample.bare_exec Sample.str_CalledProcessError "foo"
              initial_world _ eq_refl eq_refl) as [msg [E Hmsg]].
  simpl in Hmsg. rewrite E, Hmsg. reflexivity.
Defined.

(** X3. The answer of a lookup whose process completed is read off the
    error output alone: the exit status and the standard output of the
    process, the machine and the state of the run play no part. *)
Theorem resolver_reads_stderr_only
        (exec1 exec2 : nat -> list string -> result CompletedProcess)
        (str1 str2 : list string -> Z -> string)
        (package_name : string) (w1 w2 : world) (p1 p2 : CompletedProcess)
        (H1 : exec1 (started w1) (pip_install_command package_name) = Ok p1)
        (H2 : exec2 (started w2) (pip_install_command package_name) = Ok p2)
        (Herr : stderr p1 = stderr p2) :
  exists answer,
    fst (get_latest_package_version exec1 str1 package_name w1) = Ok answer
    /\ fst (get_latest_package_version exec2 str2 package_name w2) = Ok answer.
Proof.
  unfold pip_install_command in H1, H2.
  rewrite (resolver_on_output exec1 str1 package_name w1 H1).
  rewrite (resolver_on_output exec2 str2 package_name w2 H2).
  rewrite Herr.
  destruct (latest_from_output_log_only package_name (stderr p2)) as [a Hl].
  exists a. split.
  - destruct (Hl (mkWorld (S (started w1)) (root_level w1)
                          (handled w1) (printed w1))) as [r [E _]].
    now rewrite E.
  - destruct (Hl (mkWorld (S (started w2)) (root_level w2)
                          (handled w2) (printed w2))) as [r [E _]].
    now rewrite E.
Qed.

Lemma resolver_reads_stderr_only_witness :
  exists answer,
    fst (get_latest_package_version Sample.os_exec Sample.str_CalledProcessError
                                    "foo" initial_world) = Ok answer
    /\ fst (get_latest_package_version
              Fixtures.quiet_exec Sample.str_CalledProcessError
              "foo" (mkWorld 7 DEBUG [] ["a line"])) = Ok answer.
Proof.
  exact (@resolver_reads_stderr_only
           Sample.os_exec Fixtures.quiet_exec
           Sample.str_CalledProcessError Sample.str_CalledProcessError
           "foo" initial_world (mkWorld 7 DEBUG [] ["a line"])
           _ _ eq_refl eq_refl eq_refl).
Defined.

(** X4. A blank list of versions is not reported as a failed lookup:
    when nothing but white space stands between the marker and the
    closing parenthesis, the lookup returns the empty string and logs
    nothing; the Detector takes the empty string for no answer, leaves
    the updates as they were and logs its warning that the latest
    version could not be retrieved. *)
Theorem blank_versions_list
        (os_exec : nat -> list string -> result CompletedProcess)
        (str_CalledProcessError : list string -> Z -> string)
        (p : package) (acc : list update) (w : world)
        (proc : CompletedProcess) (before body rest : string)
        (Hexec : os_exec (started w) (pip_install_command (pkg_name p))
                 = Ok proc)
        (Hout : stderr proc = before ++ marker ++ body ++ ")" ++ rest)
        (Hfirst : forall i, occurs_at marker (stderr proc) i ->
                            String.length before <= i)
        (Hno : ~ has_char ")" body)
        (Hblank : Py.strip body = "")
        (Hen : logging.isEnabledFor WARNING w = true) :
  get_latest_package_version os_exec str_CalledProcessError (pkg_name p) w
  = (Ok (Some ""), advance w [])
  /\ check_package os_exec str_CalledProcessError p acc w
     = (Ok acc, advance w [skipping_record (pkg_name p)]).
Proof.
  assert (E : get_latest_package_version os_exec str_CalledProcessError
                                         (pkg_name p) w
              = (Ok (Some ""), advance w [])).
  { unfold pip_install_command in Hexec.
    rewrite (resolver_on_output os_exec str_CalledProcessError _ w Hexec).
    apply (@latest_found (pkg_name p) (stderr proc) before body rest "" "" w
                         Hout Hfirst Hno Hblank).
    - left; reflexivity.
    - intros []. }
  split; [exact E|].
  unfold check_package, bind at 1. rewrite E.
  change (Py.truthy "") with false. cbv beta iota.
  unfold bind, logging.warning, ret. cbv beta.
  rewrite emit_eq, isEnabledFor_advance, Hen.
  rewrite advance_extend. reflexivity.
Qed.

Lemma blank_versions_list_witness :
  check_package Fixtures.blank_exec Sample.str_CalledProcessError
                Sample.foo [] initial_world
  = (Ok [], advance initial_world [skipping_record "foo"]).
Proof.
  refine (proj2 (@blank_versions_list
                   Fixtures.blank_exec Sample.str_CalledProcessError
                   Sample.foo [] initial_world _
                   "ERROR: no versions " " " "" eq_refl eq_refl _ _ eq_refl
                   eq_refl)).
  - intros i Hi.
    pose proof (@index_spec marker marker_nonempty
                  "ERROR: no versions (from versions: )" 0) as Hspec.
    vm_compute index in Hspec. destruct Hspec as [_ [_ Hmin]].
    apply Hmin; [lia | exact Hi].
  - unfold has_char. simpl. intros [H|[]]. discriminate.
Defined.

(* ================================================================= *)
(** ** The shape of the Resolver's answers *)

Section AnswerShape.

Lemma has_char_lstrip (c : ascii) (s : string) :
  has_char c (Py.lstrip s) -> has_char c s.
Proof.
  unfold has_char. induction s as [|a s IH]; simpl; [tauto|].
  destruct (Py.isspace a); [intros H; right; exact (IH H) | tauto].
Qed.

Lemma has_char_rstrip (c : ascii) (s : string) :
  has_char c (Py.rstrip s) -> has_char c s.
Proof.
  unfold has_char. induction s as [|a s IH]; simpl; [tauto|].
  destruct (Py.rstrip s) as [|b r].
  - destruct (Py.isspace a); simpl; tauto.
  - simpl. intros [H|H]; [left; exact H | right; apply IH; exact H].
Qed.

Lemma has_char_strip (c : ascii) (s : string) :
  has_char c (Py.strip s) -> has_char c s.
Proof. intros H. apply has_char_lstrip, has_char_rstrip. exact H. Qed.

Lemma rstrip_idempotent (s : string) : Py.rstrip (Py.rstrip s) = Py.rstrip s.
Proof.
  induction s as [|a s IH]; simpl; [reflexivity|].
  destruct (Py.rstrip s) as [|b r] eqn:E.
  - destruct (Py.isspace a) eqn:Ea; simpl; [reflexivity|].
    now rewrite Ea.
  - change (Py.rstrip (String a (String b r)))
      with (match Py.rstrip (String b r) with
            | "" => if Py.isspace a then "" else String a ""
            | String x y => String a (String x y)
            end).
    now rewrite IH.
Qed.

Lemma lstrip_head (s : string) :
  Py.lstrip s = ""
  \/ exists a t, Py.lstrip s = String a t /\ Py.isspace a = false.
Proof.
  induction s as [|a s IH]; simpl; [left; reflexivity|].
  destruct (Py.isspace a) eqn:Ea; [exact IH|].
  right. exists a, s. split; [reflexivity|exact Ea].
Qed.

Lemma lstrip_strip (s : string) : Py.lstrip (Py.strip s) = Py.strip s.
Proof.
  unfold Py.strip.
  destruct (lstrip_head s) as [->|[a [t [-> Ha]]]]; [reflexivity|].
  simpl. destruct (Py.rstrip t); [rewrite Ha|]; simpl; now rewrite Ha.
Qed.

(** [strip] leaves a stripped string as it is. *)
Lemma strip_idempotent (s : string) : Py.strip (Py.strip s) = Py.strip s.
Proof.
  unfold Py.strip at 1. rewrite lstrip_strip.
  unfold Py.strip. apply rstrip_idempotent.
Qed.

Lemma split_on_chars (is_sep : ascii -> bool) (c : ascii) (s : string) :
  forall e, In e (Py.split_on is_sep s) -> has_char c e ->
            has_char c s /\ is_sep c = false.
Proof.
  unfold has_char.
  induction s as [|a s IH]; simpl; intros e He Hc.
  - destruct He as [<-|[]]. destruct Hc.
  - destruct (is_sep a) eqn:Ea.
    + destruct He as [<-|He]; [destruct Hc|].
      destruct (IH e He Hc) as [H1 H2]. split; [right; exact H1|exact H2].
    + pose proof (split_on_nonempty is_sep s) as Hne.
      destruct (Py.split_on is_sep s) as [|x xs]; [contradiction|].
      destruct He as [<-|He].
      * simpl in Hc. destruct Hc as [<-|Hc].
        -- split; [left; reflexivity|exact Ea].
        -- destruct (IH x (or_introl eq_refl) Hc) as [H1 H2].
           split; [right; exact H1|exact H2].
      * destruct (IH e (or_intror He) Hc) as [H1 H2].
        split; [right; exact H1|exact H2].
Qed.

Lemma last_item_in {A} (l : list A) (x : A) :
  Py.last_item l = Some x -> In x l.
Proof.
  induction l as [|y l IH]; simpl; [discriminate|].
  destruct l as [|z l].
  - intros H. inversion H. left; reflexivity.
  - intros H. right. apply IH. exact H.
Qed.

Lemma substring_chars (c : ascii) (s : string) :
  forall n k, has_char c (substring n k s) ->
              exists i, n <= i /\ i < n + k /\ get i s = Some c.
Proof.
  unfold has_char.
  induction s as [|a s IH]; intros n k H.
  - destruct n, k; simpl in H; destruct H.
  - destruct n as [|n].
    + destruct k as [|k]; simpl in H; [destruct H|].
      destruct H as [<-|H].
      * exists 0. split; [lia|]. split; [lia|reflexivity].
      * destruct (IH 0 k H) as [i [_ [Hi Hg]]].
        exists (S i). split; [lia|]. split; [lia|exact Hg].
    + simpl in H. destruct (IH n k H) as [i [Hle [Hi Hg]]].
      exists (S i). split; [lia|]. split; [lia|exact Hg].
Qed.

Lemma get_occurs_at (c : ascii) (s : string) :
  forall i, get i s = Some c -> occurs_at (String c "") s i.
Proof.
  induction s as [|a s IH]; intros i H; simpl in H; [discriminate|].
  destruct i as [|i].
  - inversion H. apply occurs_at_0. exists s. reflexivity.
  - apply occurs_at_S. apply IH. exact H.
Qed.

(** The text between a start and the first closing parenthesis at or
    after it holds no closing parenthesis. *)
Lemma slice_to_paren (s : string) (start close : nat) :
  index start ")" s = Some close ->
  ~ has_char ")" (substring start (close - start) s).
Proof.
  intros Hi Hc.
  pose proof (index_spec paren_nonempty s start) as H. rewrite Hi in H.
  destruct H as [Hle [_ Hmin]].
  destruct (@substring_chars ")" s start (close - start) Hc)
    as [i [H1 [H2 Hg]]].
  apply get_occurs_at in Hg. apply Hmin in Hg; lia.
Qed.

End AnswerShape.

(** X5. Whatever the process printed, a version string that
    [get_latest_package_version] returns is one stripped entry of the
    list: it holds no comma and no closing parenthesis, and it neither
    starts nor ends with white space. *)
Theorem resolver_answer_shape
        (os_exec : nat -> list string -> result CompletedProcess)
        (str_CalledProcessError : list string -> Z -> string)
        (package_name : string) (w : world) (v : string)
        (Hans : fst (get_latest_package_version
                       os_exec str_CalledProcessError package_name w)
                = Ok (Some v)) :
  ~ has_char "," v /\ ~ has_char ")" v /\ Py.strip v = v.
Proof.
  destruct (os_exec (started w)
                    ["pip"; "install"; package_name ++ "==NonExistentVersion"])
    as [p|e] eqn:E.
  - rewrite (resolver_on_output os_exec str_CalledProcessError
                                package_name w E) in Hans.
    revert Hans. unfold latest_from_output. cbv zeta.
    set (undetermined := bind _ _).
    assert (Hu : forall w', fst (undetermined w') <> Ok (Some v)).
    { intros w'. unfold undetermined, bind, logging.warning, ret.
      rewrite emit_eq. simpl. discriminate. }
    change 0%Z with (Z.of_nat 0). rewrite find_of_nat.
    destruct (index 0 "(from versions:" (stderr p)) as [i0|];
      [|intros H; exfalso; exact (Hu _ H)].
    destruct (Z.of_nat i0 =? -1)%Z; [intros H; exfalso; exact (Hu _ H)|].
    replace (Z.of_nat i0 + Py.len "(from versions:")%Z
      with (Z.of_nat (i0 + 15)) by (unfold Py.len; simpl String.length; lia).
    rewrite find_of_nat.
    destruct (index (i0 + 15) ")" (stderr p)) as [close|] eqn:Ei;
      [|intros H; exfalso; exact (Hu _ H)].
    destruct (Z.of_nat close =? -1)%Z; [intros H; exfalso; exact (Hu _ H)|].
    unfold Py.slice. rewrite !Nat2Z.id.
    pose proof (@slice_to_paren (stderr p) (i0 + 15) close Ei) as Hparen.
    set (body := substring (i0 + 15) (close - (i0 + 15)) (stderr p)) in *.
    destruct (Py.last_item (map Py.strip (Py.split (Py.strip body) ",")))
      as [v'|] eqn:El; [|intros H; exfalso; exact (Hu _ H)].
    unfold ret. simpl. intros H. inversion H; subst v'. clear H.
    apply last_item_in, in_map_iff in El. destruct El as [e [<- He]].
    split; [|split].
    + intros Hc. apply has_char_strip in Hc.
      destruct (@split_on_chars (Ascii.eqb ",") "," _ e He Hc) as [_ Hs].
      rewrite Ascii.eqb_refl in Hs. discriminate.
    + intros Hc. apply has_char_strip in Hc.
      destruct (@split_on_chars (Ascii.eqb ",") ")" _ e He Hc) as [Hb _].
      apply has_char_strip in Hb. exact (Hparen Hb).
    + apply strip_idempotent.
  - exfalso. revert Hans.
    unfold get_latest_package_version, try_except, bind at 1, subprocess_run.
    rewrite E.
    destruct (exn_kind e); cbv beta iota;
      unfold bind, logging.error, ret; rewrite emit_eq; simpl; discriminate.
Qed.

Lemma resolver_answer_shape_witness :
  ~ has_char "," "1.3.0" /\ ~ has_char ")" "1.3.0"
  /\ Py.strip "1.3.0" = "1.3.0".
Proof.
  exact (@resolver_answer_shape
           Sample.os_exec Sample.str_CalledProcessError
           "foo" initial_world "1.3.0" eq_refl).
Defined.

(* ================================================================= *)
(** ** The Detector: its frame, its log, its composition *)

Section DetectorFacts.
Variable os_exec : nat -> list string -> result CompletedProcess.
Variable str_CalledProcessError : list string -> Z -> string.

Local Abbreviation detector := (check_package os_exec str_CalledProcessError).
Local Abbreviation answer_at :=
  (resolver_answer os_exec str_CalledProcessError).
Local Abbreviation answers := (answers_from os_exec str_CalledProcessError).

Lemma emitted_one (w : world) (r : LogRecord) :
  emitted w [r] = if logging.isEnabledFor (levelname r) w then [r] else [].
Proof. unfold emitted. simpl. destruct (logging.isEnabledFor _ w); reflexivity. Qed.



(** One turn of the loop, with the exact records: the package enters
    the list when it is a candidate, and the records of the turn are the
    Resolver's followed by those of the Detector that the logger
    handles.  The Resolver's records do not depend on the list. *)
Lemma check_package_records (p : package) (w : world) :
  let answer := answer_at (started w) (pkg_name p) in
  exists r_res,
    Forall (fun r => funcName r = "get_latest_package_version") r_res
    /\ forall acc,
        detector p acc w
        = (Ok (acc ++ match candidate p answer with
                      | Some u => [u]
                      | None => []
                      end)%list,
           advance w (r_res ++ emitted w (detector_records (p, answer)))).
Proof.
  intros answer.
  destruct (resolver_effect os_exec str_CalledProcessError (pkg_name p) w)
    as [r_res [E F]].
  fold answer in E. exists r_res. split; [exact F|]. intros acc.
  unfold check_package, bind at 1. rewrite E. clear E.
  assert (Hwarn : forall msg,
             bind (logging.warning "check_for_updates" msg) (fun _ => ret acc)
                  (advance w r_res)
             = (Ok acc,
                advance w (r_res
                           ++ emitted w [mkLogRecord WARNING "check_for_updates"
                                                     msg]))).
  { intros msg. unfold bind, logging.warning, ret. rewrite emit_eq.
    rewrite isEnabledFor_advance, advance_extend, emitted_one. reflexivity. }
  unfold detector_records, candidate. simpl fst. simpl snd.
  destruct answer as [latest|].
  - destruct (Py.truthy latest) eqn:Et.
    + unfold try_except, bind at 1, lift.
      destruct (version.parse (pkg_version p)) as [vi|e1] eqn:E1.
      * unfold bind at 1.
        destruct (version.parse latest) as [vl|e2] eqn:E2.
        -- destruct (version.lt vi vl).
           ++ unfold bind, logging.info, ret. rewrite emit_eq.
              rewrite isEnabledFor_advance, advance_extend, emitted_one.
              reflexivity.
           ++ unfold ret. simpl. rewrite !app_nil_r. reflexivity.
        -- rewrite (parse_raise_kind _ E2), Hwarn, app_nil_r. reflexivity.
      * rewrite (parse_raise_kind _ E1), Hwarn, app_nil_r. reflexivity.
    + rewrite Hwarn. destruct latest; [|discriminate].
      pose proof parses_empty as He. unfold parses in He. revert He.
      destruct (version.parse ""); intros He; [discriminate|].
      destruct (version.parse (pkg_version p)); rewrite app_nil_r; reflexivity.
  - rewrite Hwarn, app_nil_r. reflexivity.
Qed.


End DetectorFacts.

Lemma parse_empty_raises : exists e, version.parse "" = Raise e.
Proof.
  pose proof parses_empty as He. unfold parses in He.
  destruct (version.parse "") as [v|e]; [discriminate|]. exists e. reflexivity.
Qed.









(* ================================================================= *)
(** ** The order of versions, as the Detector uses it *)

Section KeyOrder.
Import version.

Lemma one_way_N : one_way N.eqb N.ltb.
Proof.
  split; [apply N.eqb_sym|].
  intros x y _ H. apply N.ltb_lt in H. apply N.ltb_ge. lia.
Qed.

Lemma string_ltb_one_way (x y : string) :
  String.ltb x y = true -> String.ltb y x = false.
Proof.
  unfold String.ltb. rewrite (String.compare_antisym x y).
  destruct (String.compare y x); simpl; congruence.
Qed.

Lemma one_way_ext {A} (eqb ltb : A -> A -> bool) :
  one_way eqb ltb -> one_way (ext_eqb eqb) (ext_ltb ltb).
Proof.
  intros [Hs Ha]. split.
  - intros [|a|] [|b|]; simpl; try reflexivity. apply Hs.
  - intros [|a|] [|b|]; simpl; try congruence. apply Ha.
Qed.

Lemma one_way_pair {A B} (eqa lta : A -> A -> bool) (eqb ltb : B -> B -> bool) :
  one_way eqa lta ->
  (forall x y, eqb x y = eqb y x) ->
  (forall x y, ltb x y = true -> ltb y x = false) ->
  one_way (pair_eqb eqa eqb) (pair_ltb eqa lta ltb).
Proof.
  intros [Hs Ha] Hsb Hab. split.
  - intros [a1 b1] [a2 b2]. unfold pair_eqb. simpl.
    now rewrite (Hs a1 a2), (Hsb b1 b2).
  - intros [a1 b1] [a2 b2]. unfold pair_eqb, pair_ltb. simpl.
    rewrite (Hs a2 a1). destruct (eqa a1 a2) eqn:E.
    + intros _. apply Hab.
    + intros _. apply Ha. exact E.
Qed.

Lemma one_way_tuple {A} (eqb ltb : A -> A -> bool) :
  one_way eqb ltb -> one_way (tuple_eqb eqb) (tuple_ltb eqb ltb).
Proof.
  intros [Hs Ha]. split.
  - induction x as [|x xs IH]; intros [|y ys]; simpl; try reflexivity.
    now rewrite (Hs x y), IH.
  - induction x as [|x xs IH]; intros [|y ys]; simpl; try congruence.
    rewrite (Hs y x). destruct (eqb x y) eqn:E.
    + simpl. apply IH.
    + intros _. apply Ha. exact E.
Qed.

Lemma one_way_lv : one_way lv_eqb lv_ltb.
Proof.
  apply one_way_pair.
  - split; [apply String.eqb_sym|]. intros x y _. apply string_ltb_one_way.
  - apply N.eqb_sym.
  - intros x y H. apply N.ltb_lt in H. apply N.ltb_ge. lia.
Qed.

Lemma one_way_local_key : one_way local_key_eqb local_key_ltb.
Proof.
  apply one_way_pair.
  - apply one_way_ext, one_way_N.
  - apply String.eqb_sym.
  - apply string_ltb_one_way.
Qed.

(** [<] on keys never holds both ways. *)
Lemma key_ltb_one_way (k1 k2 : CmpKey) :
  key_ltb k1 k2 = true -> key_ltb k2 k1 = false.
Proof.
  destruct one_way_N as [S1 A1].
  destruct (one_way_tuple one_way_N) as [S2 A2].
  destruct (one_way_ext one_way_lv) as [S3 A3].
  destruct (one_way_ext (one_way_tuple one_way_local_key)) as [S4 A4].
  unfold key_ltb.
  rewrite (S1 (key_epoch k2)), (S2 (key_release k2)), (S3 (key_pre k2)),
    (S3 (key_post k2)), (S3 (key_dev k2)), (S4 (key_local k2)).
  destruct (N.eqb (key_epoch k1) (key_epoch k2)) eqn:E1; simpl;
    [|apply A1; exact E1].
  destruct (tuple_eqb N.eqb (key_release k1) (key_release k2)) eqn:E2; simpl;
    [|apply A2; exact E2].
  destruct (ext_eqb lv_eqb (key_pre k1) (key_pre k2)) eqn:E3; simpl;
    [|apply A3; exact E3].
  destruct (ext_eqb lv_eqb (key_post k1) (key_post k2)) eqn:E4; simpl;
    [|apply A3; exact E4].
  destruct (ext_eqb lv_eqb (key_dev k1) (key_dev k2)) eqn:E5; simpl;
    [|apply A3; exact E5].
  destruct (ext_eqb (tuple_eqb local_key_eqb) (key_local k1) (key_local k2))
    eqn:E6; simpl; [discriminate|apply A4; exact E6].
Qed.

Lemma ext_eqb_refl {A} (eqb : A -> A -> bool) (x : ext A) :
  (forall a, eqb a a = true) -> ext_eqb eqb x x = true.
Proof. intros H. destruct x; simpl; auto. Qed.

Lemma local_key_eqb_refl (x : local_key) : local_key_eqb x x = true.
Proof.
  unfold local_key_eqb, pair_eqb.
  rewrite (ext_eqb_refl N.eqb _ N.eqb_refl), String.eqb_refl. reflexivity.
Qed.

(** No key is before itself. *)
Lemma key_ltb_irrefl (k : CmpKey) : key_ltb k k = false.
Proof.
  unfold key_ltb.
  rewrite N.eqb_refl, (tuple_eqb_refl N.eqb _ N.eqb_refl),
    !(ext_eqb_refl lv_eqb _ lv_eqb_refl),
    (ext_eqb_refl (tuple_eqb local_key_eqb) _
                  (fun l => tuple_eqb_refl local_key_eqb l local_key_eqb_refl)).
  reflexivity.
Qed.

End KeyOrder.

Section UpToDate.
Variable os_exec : nat -> list string -> result CompletedProcess.
Variable str_CalledProcessError : list string -> Z -> string.

(** A package that is compared and found not to be behind: the turn
    of the loop leaves the list as it was and the Detector logs
    nothing. *)
Lemma up_to_date_step (p : package) (acc : list update) (w : world)
      (latest : string) (vi vl : version.Version) :
  resolver_answer os_exec str_CalledProcessError (started w) (pkg_name p)
  = Some latest ->
  version.parse (pkg_version p) = Ok vi ->
  version.parse latest = Ok vl ->
  version.lt vi vl = false ->
  exists recs,
    check_package os_exec str_CalledProcessError p acc w
    = (Ok acc, advance w recs)
    /\ logged_by "check_for_updates" recs = [].
Proof.
  intros Ha Hi Hl Hlt.
  destruct (check_package_records os_exec str_CalledProcessError p w)
    as [r_res [F E]].
  rewrite Ha in E.
  assert (Ht : Py.truthy latest = true).
  { destruct latest; [|reflexivity].
    destruct parse_empty_raises as [e He]. congruence. }
  assert (Hc : candidate p (Some latest) = None)
    by (unfold candidate; now rewrite Hi, Hl, Hlt).
  assert (Hd : detector_records (p, Some latest) = [])
    by (unfold detector_records; simpl; now rewrite Ht, Hi, Hl, Hlt).
  exists (r_res ++ emitted w (detector_records (p, Some latest)))%list.
  split.
  - rewrite E, Hc, app_nil_r. reflexivity.
  - rewrite Hd. unfold emitted. simpl. rewrite app_nil_r.
    apply (@logged_by_other "check_for_updates"
                            "get_latest_package_version" r_res);
      [discriminate | exact F].
Qed.

End UpToDate.



(** X10. A package installed ahead of the index is never an update:
    when the latest version is strictly before the installed one, the
    list is left as it was and the Detector logs nothing about the
    package. *)
Theorem newer_installed_is_no_update
        (os_exec : nat -> list string -> result CompletedProcess)
        (str_CalledProcessError : list string -> Z -> string)
        (p : package) (acc : list update) (w : world)
        (latest : string) (vi vl : version.Version)
        (Hans : resolver_answer os_exec str_CalledProcessError
                                (started w) (pkg_name p) = Some latest)
        (Hi : version.parse (pkg_version p) = Ok vi)
        (Hl : version.parse latest = Ok vl)
        (Hnewer : version.lt vl vi = true) :
  exists recs,
    check_package os_exec str_CalledProcessError p acc w
    = (Ok acc, advance w recs)
    /\ logged_by "check_for_updates" recs = [].
Proof.
  apply (@up_to_date_step os_exec str_CalledProcessError p acc w latest vi vl
                          Hans Hi Hl).
  apply key_ltb_one_way. exact Hnewer.
Qed.

Lemma newer_installed_is_no_update_witness :
  exists recs,
    check_package Sample.os_exec Sample.str_CalledProcessError
                  Fixtures.foo_ahead [] initial_world
    = (Ok [], advance initial_world recs)
    /\ logged_by "check_for_updates" recs = [].
Proof.
  refine (@newer_installed_is_no_update
            Sample.os_exec Sample.str_CalledProcessError
            Fixtures.foo_ahead [] initial_world "1.3.0" _ _ eq_refl _ _ _).
  - vm_compute. reflexivity.
  - vm_compute. reflexivity.
  - vm_compute. reflexivity.
Defined.

(** X11. Padding a release with zeros makes no update: two version
    strings that parse to the same epoch, the same release segments
    (missing ones counting as zero) and the same qualifiers are
    outdated neither way, so that 1.3 installed and 1.3.0 latest, or
    the reverse, is not reported. *)
Theorem zero_padding_is_no_update
        (name installed latest : string) (vi vl : version.Version)
        (Hi : version.parse installed = Ok vi)
        (Hl : version.parse latest = Ok vl)
        (Hepoch : version.epoch (version._version vi)
                  = version.epoch (version._version vl))
        (Hseg : forall i, segment (version.release (version._version vi)) i
                          = segment (version.release (version._version vl)) i)
        (Hpre : version.pre (version._version vi)
                = version.pre (version._version vl))
        (Hpost : version.post (version._version vi)
                 = version.post (version._version vl))
        (Hdev : version.dev (version._version vi)
                = version.dev (version._version vl))
        (Hlocal : version.local (version._version vi)
                  = version.local (version._version vl)) :
  outdated (mkPackage name installed, Some latest) = false
  /\ outdated (mkPackage name latest, Some installed) = false.
Proof.
  assert (Hk : version._key vi = version._key vl).
  { rewrite (parse_key _ Hi), (parse_key _ Hl).
    unfold version._cmpkey.
    rewrite Hepoch, Hpre, Hpost, Hdev, Hlocal, (trim_same_segments _ _ Hseg).
    reflexivity. }
  unfold outdated. simpl. rewrite Hi, Hl. unfold version.lt.
  rewrite Hk. split; apply key_ltb_irrefl.
Qed.

Lemma zero_padding_is_no_update_witness :
  outdated (Fixtures.foo_padded, Some "1.3.0") = false
  /\ outdated (mkPackage "foo" "1.3.0", Some "1.3") = false.
Proof.
  refine (@zero_padding_is_no_update "foo" "1.3" "1.3.0" _ _ _ _ _ _ _ _ _ _).
  - vm_compute. reflexivity.
  - vm_compute. reflexivity.
  - reflexivity.
  - intros [|[|[|i]]]; try reflexivity.
    unfold segment. simpl. destruct i; reflexivity.
  - reflexivity.
  - reflexivity.
  - reflexivity.
  - reflexivity.
Defined.

(* ================================================================= *)
(** ** The verbose flag *)

Section LevelBlind.

Lemma blind_ret {A} (a : A) : level_blind (ret a).
Proof. intros w Hw. split; [reflexivity|exact Hw]. Qed.

Lemma blind_lift {A} (r : result A) : level_blind (lift r).
Proof. intros w Hw. split; [reflexivity|exact Hw]. Qed.

Lemma blind_print (line : string) : level_blind (print line).
Proof. intros w Hw. split; [reflexivity|exact Hw]. Qed.

Lemma blind_emit (l : level) (fn msg : string) :
  (levelno INFO <=? levelno l)%Z = true -> level_blind (logging.emit l fn msg).
Proof.
  intros Hl w Hw. unfold logging.emit, logging.isEnabledFor, relevel.
  simpl root_level. rewrite Hw.
  destruct l; try discriminate Hl; simpl;
    (split; [reflexivity | first [exact Hw | reflexivity]]).
Qed.

Lemma blind_info (fn msg : string) : level_blind (logging.info fn msg).
Proof. apply blind_emit. reflexivity. Qed.

Lemma blind_warning (fn msg : string) : level_blind (logging.warning fn msg).
Proof. apply blind_emit. reflexivity. Qed.

Lemma blind_error (fn msg : string) : level_blind (logging.error fn msg).
Proof. apply blind_emit. reflexivity. Qed.

Lemma blind_bind {A B} (m : M A) (k : A -> M B) :
  level_blind m -> (forall a, level_blind (k a)) -> level_blind (bind m k).
Proof.
  intros Hm Hk w Hw. unfold bind.
  destruct (Hm w Hw) as [E Hl]. rewrite E.
  destruct (m w) as [[a|e] w']; simpl in *.
  - apply Hk. exact Hl.
  - split; [reflexivity|exact Hl].
Qed.

Lemma blind_try_except {A} (body : M A) (handlers : exn -> option (M A)) :
  level_blind body ->
  (forall e h, handlers e = Some h -> level_blind h) ->
  level_blind (try_except body handlers).
Proof.
  intros Hb Hh w Hw. unfold try_except.
  destruct (Hb w Hw) as [E Hl]. rewrite E.
  destruct (body w) as [[a|e] w']; simpl in *.
  - split; [reflexivity|exact Hl].
  - destruct (handlers e) as [h|] eqn:Eh.
    + apply (Hh e h Eh). exact Hl.
    + split; [reflexivity|exact Hl].
Qed.

Lemma blind_for_each {A S} (xs : list A) (body : A -> S -> M S) :
  (forall x acc, level_blind (body x acc)) ->
  forall acc, level_blind (for_each xs body acc).
Proof.
  intros Hb. induction xs as [|x xs IH]; intros acc; simpl.
  - apply blind_ret.
  - apply blind_bind; [apply Hb | exact IH].
Qed.

Variable os_exec : nat -> list string -> result CompletedProcess.
Variable json_loads : string -> result (list package).
Variable str_CalledProcessError : list string -> Z -> string.

Lemma blind_subprocess_run (command : list string) (check : bool) :
  level_blind (subprocess_run os_exec str_CalledProcessError command check).
Proof.
  intros w Hw. unfold subprocess_run, relevel. simpl.
  destruct (os_exec (started w) command) as [p|e];
    [destruct (check && negb (returncode p =? 0)%Z)%bool|];
    (split; [reflexivity|exact Hw]).
Qed.

Ltac blind_step :=
  first
    [ apply blind_ret | apply blind_lift | apply blind_print
    | apply blind_info | apply blind_warning | apply blind_error
    | apply blind_subprocess_run
    | apply blind_bind; [|intros ?]
    | apply blind_for_each; intros ? ?
    | match goal with
      | |- level_blind (if ?b then _ else _) => destruct b
      | |- level_blind (match ?x with _ => _ end) => destruct x
      end ].

Ltac blind_handlers :=
  let e := fresh "e" in
  let h := fresh "h" in
  let H := fresh "H" in
  intros e h H; destruct (exn_kind e);
  first [ discriminate H | inversion H; subst h; repeat blind_step ].

Lemma blind_lister (project_path : string) :
  level_blind (get_installed_packages os_exec json_loads str_CalledProcessError
                                      project_path).
Proof.
  unfold get_installed_packages. cbv zeta.
  apply blind_try_except; [repeat blind_step | blind_handlers].
Qed.

Lemma blind_resolver (package_name : string) :
  level_blind (get_latest_package_version os_exec str_CalledProcessError
                                          package_name).
Proof.
  unfold get_latest_package_version, latest_from_output. cbv zeta.
  apply blind_try_except; [repeat blind_step | blind_handlers].
Qed.

Lemma blind_check_package (p : package) (acc : list update) :
  level_blind (check_package os_exec str_CalledProcessError p acc).
Proof.
  unfold check_package. cbv zeta.
  apply blind_bind; [apply blind_resolver|]. intros latest.
  destruct latest as [latest|]; [|repeat blind_step].
  destruct (Py.truthy latest); [|repeat blind_step].
  apply blind_try_except; [repeat blind_step | blind_handlers].
Qed.

Lemma blind_check_for_updates (installed_packages : option (list package)) :
  level_blind (check_for_updates os_exec str_CalledProcessError
                                 installed_packages).
Proof.
  unfold check_for_updates. cbv zeta.
  destruct installed_packages; [|repeat blind_step].
  apply blind_for_each. intros x acc. apply blind_check_package.
Qed.

Lemma blind_scanner (project_path : string) :
  level_blind (check_security_vulnerabilities os_exec str_CalledProcessError
                                              project_path).
Proof.
  unfold check_security_vulnerabilities. cbv zeta.
  apply blind_try_except; [repeat blind_step | blind_handlers].
Qed.

Lemma blind_print_report (updates : list update) :
  level_blind (print_report updates).
Proof. unfold print_report. repeat blind_step. Qed.

End LevelBlind.

(** X12. The flag [--verbose] changes nothing that can be observed but
    the level of the logger: [main] writes no record below [INFO], so a
    verbose run returns as the plain run does, starts the same
    processes, handles the same records and prints the same lines. *)
Theorem verbose_changes_level_only
        (os_exec : nat -> list string -> result CompletedProcess)
        (json_loads : string -> result (list package))
        (str_CalledProcessError : list string -> Z -> string)
        (requirements path : string) (security : bool) :
  let plain :=
    run_script os_exec json_loads str_CalledProcessError
               (mkNamespace requirements path false security) in
  run_script os_exec json_loads str_CalledProcessError
             (mkNamespace requirements path true security)
  = (fst plain, relevel DEBUG (snd plain)).
Proof.
  intros plain. unfold plain, run_script, main. simpl verbose.
  simpl project_path. simpl check_security.
  match goal with
  | |- bind _ ?k _ = _ => set (rest := k tt)
  end.
  assert (Hrest : level_blind rest).
  { unfold rest.
    apply blind_bind; [apply blind_info|]. intros _.
    apply blind_bind; [apply blind_lister|]. intros installed.
    apply blind_bind.
    - destruct (truthy_packages installed).
      + apply blind_bind; [apply blind_check_for_updates|].
        intros updates. apply blind_print_report.
      + apply blind_error.
    - intros _. apply blind_bind.
      + destruct security; [|apply blind_ret].
        apply blind_bind; [apply blind_info|]. intros _. apply blind_scanner.
      + intros _. apply blind_info. }
  change (rest (relevel DEBUG initial_world)
          = (fst (rest initial_world), relevel DEBUG (snd (rest initial_world)))).
  apply Hrest. reflexivity.
Qed.

(* ================================================================= *)
(** ** The trace of a run *)

Section MainTrace.
Variable os_exec : nat -> list string -> result CompletedProcess.
Variable json_loads : string -> result (list package).
Variable str_CalledProcessError : list string -> Z -> string.



End MainTrace.



(* ================================================================= *)
(** ** A lookup logs exactly when it fails *)

(** X14. [get_latest_package_version] always returns, starts one
    process and prints nothing.  With warnings enabled it leaves
    exactly one record of its own, a warning or an error, when it
    returns [None], and no record at all when it returns a version
    string. *)
Theorem resolver_logs_iff_undetermined
        (os_exec : nat -> list string -> result CompletedProcess)
        (str_CalledProcessError : list string -> Z -> string)
        (package_name : string) (w : world)
        (Hen : logging.isEnabledFor WARNING w = true) :
  exists answer recs,
    get_latest_package_version os_exec str_CalledProcessError package_name w
    = (Ok answer, advance w recs)
    /\ match answer with
       | Some _ => recs = []
       | None =>
           exists r, recs = [r]
                     /\ funcName r = "get_latest_package_version"
                     /\ (levelname r = WARNING \/ levelname r = ERROR)
       end.
Proof.
  assert (Herr : logging.isEnabledFor ERROR w = true)
    by (revert Hen; unfold logging.isEnabledFor;
        destruct (root_level w); simpl; intros H;
        first [reflexivity | discriminate H]).
  destruct (os_exec (started w) (pip_install_command package_name))
    as [p|e] eqn:E.
  - unfold pip_install_command in E.
    rewrite (resolver_on_output os_exec str_CalledProcessError
                                package_name w E).
    unfold latest_from_output. cbv zeta.
    assert (Hu : exists answer recs,
               (Ok (@None string),
                advance w [undetermined_record package_name])
               = (Ok answer, advance w recs)
               /\ match answer with
                  | Some _ => recs = []
                  | None =>
                      exists r, recs = [r]
                                /\ funcName r = "get_latest_package_version"
                                /\ (levelname r = WARNING
                                    \/ levelname r = ERROR)
                  end).
    { exists None, [undetermined_record package_name].
      split; [reflexivity|]. eexists. split; [reflexivity|].
      split; [reflexivity|left; reflexivity]. }
    destruct (_ =? -1)%Z;
      [rewrite (undetermined_eq package_name w Hen); exact Hu|].
    destruct (_ =? -1)%Z;
      [rewrite (undetermined_eq package_name w Hen); exact Hu|].
    destruct (Py.last_item _) as [v|];
      [|rewrite (undetermined_eq package_name w Hen); exact Hu].
    exists (Some v), []. split; [|reflexivity].
    unfold ret, advance. simpl. now rewrite app_nil_r.
  - destruct (@resolver_raises_effect os_exec str_CalledProcessError
                                      package_name w e E Herr)
      as [msg [Em _]].
    exists None. eexists. split; [exact Em|].
    eexists. split; [reflexivity|]. split; [reflexivity|right; reflexivity].
Qed.

Lemma resolver_logs_iff_undetermined_witness :
  exists r,
    get_latest_package_version Sample.os_exec Sample.str_CalledProcessError
                               "qux" initial_world
    = (Ok None, advance initial_world [r])
    /\ funcName r = "get_latest_package_version".
Proof.
  destruct (@resolver_logs_iff_undetermined
              Sample.os_exec Sample.str_CalledProcessError "qux" initial_world
              eq_refl) as [answer [recs [E H]]].
  assert (Ha : answer = None).
  { apply (f_equal fst) in E. vm_compute in E. inversion E. reflexivity. }
  subst answer. destruct H as [r [-> [Hf _]]].
  exists r. split; [exact E | exact Hf].
Defined.

(* ================================================================= *)
(** ** No false report *)

Lemma outdated_true (p : package) (a : option string) :
  outdated (p, a) = true ->
  exists latest vi vl,
    a = Some latest
    /\ version.parse (pkg_version p) = Ok vi
    /\ version.parse latest = Ok vl
    /\ version.lt vi vl = true.
Proof.
  unfold outdated. simpl. destruct a as [latest|]; [|discriminate].
  destruct (version.parse (pkg_version p)) as [vi|] eqn:Ei; [|discriminate].
  destruct (version.parse latest) as [vl|] eqn:El; [|discriminate].
  intros H. exists latest, vi, vl.
  split; [reflexivity|]. split; [reflexivity|]. split; [exact El|exact H].
Qed.

(** The expected candidates are no more than the packages, each one is
    the record of an outdated package of the list, and their names are
    names of the list, as often at most. *)
Lemma expected_candidates_sound (ps : list package) :
  forall answers,
    List.length (expected_candidates ps answers) <= List.length ps
    /\ (forall u, In u (expected_candidates ps answers) ->
                  exists p a, In p ps /\ u = as_update (p, a)
                              /\ outdated (p, a) = true)
    /\ (forall n, In n (map name (expected_candidates ps answers)) ->
                  In n (map pkg_name ps))
    /\ (NoDup (map pkg_name ps) ->
        NoDup (map name (expected_candidates ps answers))).
Proof.
  induction ps as [|p ps IH]; intros [|a answers];
    try (unfold expected_candidates; simpl; repeat split;
         [lia | intros u [] | intros n [] | intros _; constructor]).
  destruct (IH answers) as [Hlen [Hin [Hnames Hnodup]]].
  rewrite expected_candidates_cons, candidate_outdated.
  destruct (outdated (p, a)) eqn:Eo; simpl.
  - split; [lia|]. split; [|split].
    + intros u [<-|Hu].
      * exists p, a. split; [left; reflexivity|]. split; [reflexivity|exact Eo].
      * destruct (Hin u Hu) as [q [b [Hq Hb]]]. exists q, b.
        split; [right; exact Hq | exact Hb].
    + intros n [<-|Hn]; [left; reflexivity | right; apply Hnames; exact Hn].
    + intros Hnd. inversion Hnd as [|x l Hx Hl]; subst.
      constructor; [|apply Hnodup; exact Hl].
      intros Hn. apply Hx. apply Hnames. exact Hn.
  - split; [lia|]. split; [|split].
    + intros u Hu. destruct (Hin u Hu) as [q [b [Hq Hb]]]. exists q, b.
      split; [right; exact Hq | exact Hb].
    + intros n Hn. right. apply Hnames. exact Hn.
    + intros Hnd. inversion Hnd; subst. apply Hnodup. assumption.
Qed.

(** X15. No false report.  Every record that [check_for_updates]
    returns names a package of the input with its installed version;
    both its version strings parse and the installed one is strictly
    before the latest.  There are at most as many records as packages,
    and when the names of the packages are distinct so are the names of
    the records. *)
Theorem check_for_updates_sound
        (os_exec : nat -> list string -> result CompletedProcess)
        (str_CalledProcessError : list string -> Z -> string)
        (packages : list package) (w : world) (updates : list update)
        (Hrun : fst (check_for_updates os_exec str_CalledProcessError
                                       (Some packages) w) = Ok updates) :
  List.length updates <= List.length packages
  /\ (forall u, In u updates ->
                exists p vi vl,
                  In p packages
                  /\ name u = pkg_name p
                  /\ installed_version u = pkg_version p
                  /\ version.parse (installed_version u) = Ok vi
                  /\ version.parse (latest_version u) = Ok vl
                  /\ version.lt vi vl = true)
  /\ (NoDup (map pkg_name packages) -> NoDup (map name updates)).
Proof.
  rewrite check_for_updates_spec in Hrun. inversion Hrun as [Hu]. clear Hrun.
  destruct (expected_candidates_sound
              packages
              (answers_from os_exec str_CalledProcessError (started w) packages))
    as [Hlen [Hin [_ Hnodup]]].
  split; [exact Hlen|]. split; [|exact Hnodup].
  intros u Hu'. destruct (Hin u Hu') as [p [a [Hp [-> Ho]]]].
  destruct (outdated_true _ _ Ho) as [latest [vi [vl [-> [Hi [Hl Hlt]]]]]].
  exists p, vi, vl. simpl. repeat split; assumption.
Qed.

Lemma check_for_updates_sound_witness :
  exists p vi vl,
    In p [Sample.foo; Sample.bar; Sample.baz; Sample.qux]
    /\ "foo" = pkg_name p
    /\ "1.2.0" = pkg_version p
    /\ version.parse "1.2.0" = Ok vi
    /\ version.parse "1.3.0" = Ok vl
    /\ version.lt vi vl = true.
Proof.
  refine (proj1 (proj2 (@check_for_updates_sound
                          Sample.os_exec Sample.str_CalledProcessError
                          [Sample.foo; Sample.bar; Sample.baz; Sample.qux]
                          initial_world [mkUpdate "foo" "1.2.0" "1.3.0"] _))
                (mkUpdate "foo" "1.2.0" "1.3.0") _).
  - vm_compute. reflexivity.
  - left. reflexivity.
Defined.
